(** * Simplemux 1.4.7: the framing codec, the accumulator and the demultiplexer

    A shallow embedding of the event loop of [simplemux.c] (function [main],
    lines 676-1200) and of the trigger defaults computed at start-up
    (lines 507-510).  The three branches of the loop are embedded as functions
    that return the trace of observable actions together with the next state:
    - NET to TAP (lines 712-941): [net_event], over [demux_loop] and
      [demux_packet];
    - TAP to NET (lines 946-1166): [tap_event];
    - period expiry (lines 1172-1198): [period_event].

    Conventions of the embedding:
    - the packet buffers are arrays of plain [char]; whether plain [char] is
      signed is a parameter ([char_signed]);
    - a load outside [buffer_from_net] stops the handler with a fault; a store
      past the end of [muxed_packet] or [demuxed_packet] is recorded in the
      trace ([Overrun]) and the byte is kept, as in the flat memory of the
      process;
    - the ROHC library is external: its compressor and decompressor are
      section variables;
    - debug output on stderr is not modelled; the records written to the log
      file are. *)

From Stdlib Require Import Ascii String.
From Stdlib Require Import ZArith List Bool Lia.
From coqutil Require Import Byte.
From Stdlib Require Import Init.Byte.
Import ListNotations.
Local Open Scope Z_scope.

(** ** Constants ([#define]s of lines 64-69) *)

Definition BUFSIZE : Z := 2000.
Definition MTU : Z := 1500.
Definition PORT : Z := 55555.
Definition MAXPKTS : Z := 100.
Definition MAXTHRESHOLD : Z := 1472.
(** [MAXTIMEOUT] is the double [100000000.0]; it is only compared with
    [uint64_t] values, and on those the comparison with an integer-valued
    double below 2^53 is the integer comparison. *)
Definition MAXTIMEOUT : Z := 100000000.

(** ** Bytes and plain [char]

    The four packet buffers are arrays of plain [char] (lines 343-346).  A cell
    is modelled by the octet it holds.  Two conversions matter:
    - reading a cell in an arithmetic expression yields its value as a [char]:
      whether plain [char] is signed is implementation-defined (it is signed
      on the x86 and x86-64 Linux ABIs, unsigned on ARM Linux); the choice is
      the parameter [char_signed] of [char_val];
    - storing an [int] into a cell keeps its low eight bits. *)

Definition char_val (char_signed : bool) (b : byte) : Z :=
  if char_signed && (128 <=? byte.unsigned b)
  then byte.unsigned b - 256
  else byte.unsigned b.

Definition char_of_int (v : Z) : byte := byte.of_Z v.

(** [FromByte] (lines 255-260): [b[i] = (c & (1<<i)) != 0]; the argument is
    an [unsigned char]. *)
Definition FromByte (c : Z) : list bool :=
  map (fun i => negb (Z.land c (Z.shiftl 1 i) =? 0)) [0; 1; 2; 3; 4; 5; 6; 7].

(** [ToByte] (lines 230-238). *)
Definition ToByte (b : list bool) : Z :=
  fold_left (fun c i => if nth (Z.to_nat i) b false then Z.lor c (Z.shiftl 1 i) else c)
            [0; 1; 2; 3; 4; 5; 6; 7] 0.

(** ** The Mux separator written by the sender (lines 1083-1118)

    [size_packet_read_from_tap] is a [uint16_t]; [/] and [%] are C's
    truncating division and remainder. *)
Definition mux_separator (size_packet_read_from_tap : Z) : list byte :=
  if size_packet_read_from_tap <? 64
  then [char_of_int size_packet_read_from_tap]
  else [char_of_int (Z.quot size_packet_read_from_tap 256 + 64);
        char_of_int (Z.rem size_packet_read_from_tap 256)].

(** ** Observable actions *)

Inductive array_id := Buffer_from_net | Muxed_packet | Demuxed_packet.

(** The tags that close a [sent muxed] record. *)
Inductive flush_reason :=
| ReasonMTU
| ReasonTrigger (numpacket_limit size_limit timeout : bool)
| ReasonPeriod.

(** The records written to the log file, with their byte-count field. *)
Inductive log_record :=
| rec_muxed (bytes : Z)
| error_bad_separator (bytes : Z)
| error_demux_bad_length (bytes : Z)
| rec_ROHC_feedback (bytes : Z)
| error_decomp_failed (bytes : Z)
| sent_demuxed (bytes : Z)
| forward_native (bytes : Z)
| rec_native (bytes : Z)
| error_compr_failed (bytes : Z)
| sent_muxed (bytes : Z) (num_pkts : Z) (reason : flush_reason).

Inductive event :=
| NetRead (position : Z)            (* a load of buffer_from_net[position] *)
| Overrun (a : array_id) (index : Z)
    (* a store to a[index] with index at or past the declared size of a *)
| TapWrite (packet : list byte)     (* cwrite (tap_fd, ..., n) *)
| SendTo (datagram : list byte)     (* sendto (net_fd, muxed_packet, size_muxed_packet, ...) *)
| Log (r : log_record).

(** What stops a handler before its end. *)
Inductive fault :=
| LoadOutside (a : array_id) (index : Z)
    (* a load outside the array: its value is not defined *)
| NegativeLength (n : Z)
    (* a negative packet_length used as a byte count (cwrite exits on the
       failed write) *)
| OutOfFuel.

Inductive result (A : Type) :=
| Ok (a : A)
| Fault (f : fault).
Arguments Ok {A} a.
Arguments Fault {A} f.

(** A computation yields the trace it has emitted and its result. *)
Definition run (A : Type) : Type := (list event * result A)%type.

Definition ret {A : Type} (a : A) : run A := ([], Ok a).

Definition bind {A B : Type} (m : run A) (k : A -> run B) : run B :=
  match m with
  | (t, Ok a) => let (t', r) := k a in (t ++ t', r)
  | (t, Fault f) => (t, Fault f)
  end.

Definition emit (e : event) : run unit := ([e], Ok tt).

Definition raise {A : Type} (f : fault) : run A := ([], Fault f).

Declare Scope run_scope.
Delimit Scope run_scope with run.
Notation "x <- m ;; k" := (bind m (fun x => k))
  (at level 61, m at next level, right associativity) : run_scope.
Notation "' pat <- m ;; k" := (bind m (fun x => match x with pat => k end))
  (at level 61, pat pattern, m at next level, right associativity) : run_scope.
Notation "m ;; k" := (bind m (fun _ => k))
  (at level 61, right associativity) : run_scope.
Local Open Scope run_scope.

Definition trace {A : Type} (m : run A) : list event := fst m.
Definition outcome {A : Type} (m : run A) : result A := snd m.

(** Projections of a trace. *)
Definition tap_writes (t : list event) : list (list byte) :=
  flat_map (fun e => match e with TapWrite p => [p] | _ => [] end) t.
Definition sent_datagrams (t : list event) : list (list byte) :=
  flat_map (fun e => match e with SendTo d => [d] | _ => [] end) t.
Definition net_reads (t : list event) : list Z :=
  flat_map (fun e => match e with NetRead i => [i] | _ => [] end) t.
Definition log_records (t : list event) : list log_record :=
  flat_map (fun e => match e with Log r => [r] | _ => [] end) t.
Definition overruns (t : list event) : list (array_id * Z) :=
  flat_map (fun e => match e with Overrun a i => [(a, i)] | _ => [] end) t.

(** ** Configuration fixed at start-up (command line, lines 410-461) *)

Record config := {
  port : Z;                    (* unsigned short *)
  compress_headers : bool;     (* option -r *)
  log_file : bool;             (* log_file != NULL *)
  limit_numpackets_tap : Z;    (* int *)
  size_threshold : Z;          (* int *)
  timeout : Z;                 (* uint64_t *)
  period : Z                   (* uint64_t *)
}.

(** [if ( log_file != NULL ) fprintf (log_file, ...)]. *)
Definition logf (cfg : config) (r : log_record) : run unit :=
  if log_file cfg then emit (Log r) else ret tt.

(** ** Trigger defaults (lines 507-510)

    [limit_numpackets_tap] is 0 when option -n was not given. *)
Definition default_limit_numpackets_tap
    (size_threshold timeout period limit_numpackets_tap : Z) : Z :=
  let limit_numpackets_tap :=
    if ((size_threshold <? MAXTHRESHOLD) || (timeout <? MAXTIMEOUT) || (period <? MAXTIMEOUT))
       && (limit_numpackets_tap =? 0)
    then MAXPKTS else limit_numpackets_tap in
  let limit_numpackets_tap :=
    if ((size_threshold =? MAXTHRESHOLD) && (timeout =? MAXTIMEOUT) && (timeout =? MAXTIMEOUT))
       && (limit_numpackets_tap =? 0)
    then 1 else limit_numpackets_tap in
  limit_numpackets_tap.

(** The status codes of the ROHC library ([rohc/rohc.h]); the program only
    tells [ROHC_STATUS_OK] and [ROHC_STATUS_SEGMENT] from the rest. *)
Inductive rohc_status_t :=
| ROHC_STATUS_OK
| ROHC_STATUS_SEGMENT
| ROHC_STATUS_MALFORMED
| ROHC_STATUS_NO_CONTEXT
| ROHC_STATUS_BAD_CRC
| ROHC_STATUS_OUTPUT_TOO_SMALL
| ROHC_STATUS_ERROR.

Definition status_is_OK (s : rohc_status_t) : bool :=
  match s with ROHC_STATUS_OK => true | _ => false end.

(** Wrap-around of [uint64_t] arithmetic. *)
Definition uint64 (v : Z) : Z := v mod 2 ^ 64.

Section EventLoop.

(** Whether plain [char] is signed on the target. *)
Variable char_signed : bool.

(** The ROHC library: contexts and the two calls the program makes,
    [rohc_compress4 (compressor, ip_packet, &rohc_packet)] and
    [rohc_decompress3 (decompressor, rohc_packet_d, &ip_packet_d, NULL, NULL)],
    each returning the new context, the status and the output buffer. *)
Variables comp_ctx decomp_ctx : Type.
Variable rohc_compress4 : comp_ctx -> list byte -> comp_ctx * rohc_status_t * list byte.
Variable rohc_decompress3 : decomp_ctx -> list byte -> decomp_ctx * rohc_status_t * list byte.

(** *** NET to TAP: demultiplex and decompress *)

(** A load of [buffer_from_net[position]].  The array has [BUFSIZE] cells;
    the cells at and after [nread_from_net] keep what earlier datagrams
    left there. *)
Definition net_load (buffer_from_net : list byte) (position : Z) : run byte :=
  emit (NetRead position) ;;
  if (0 <=? position) && (position <? BUFSIZE) then
    match nth_error buffer_from_net (Z.to_nat position) with
    | Some c => ret c
    | None => raise (LoadOutside Buffer_from_net position)
    end
  else raise (LoadOutside Buffer_from_net position).

(** Lines 738-780: the Mux separator at [position].  [None] when its first
    bit is set (a bad separator); otherwise the packet length and the
    position after the separator, one byte further when the second bit is 0
    and two when it is 1.  The first byte, which the source reads at line 738
    and again at line 762 or 771, is loaded once. *)
Definition demux_separator (buffer_from_net : list byte) (position : Z)
    : run (option (Z * Z)) :=
  c <- net_load buffer_from_net position ;;
  let bits := FromByte (byte.unsigned c) in
  if nth 7 bits false then ret None
  else if negb (nth 6 bits false) then
    ret (Some (Z.rem (char_val char_signed c) 128, position + 1))
  else
    c2 <- net_load buffer_from_net (position + 1) ;;
    ret (Some (Z.rem (char_val char_signed c) 64 * 256 + char_val char_signed c2,
               position + 2)).

(** Lines 784-787: [for (l = 0; l < packet_length; l++)
    { demuxed_packet[l] = buffer_from_net[position]; position ++; }].
    [n] is the number of iterations left; [demuxed_packet] holds the cells
    [0 .. l-1] written so far.  [demuxed_packet] has [MTU] cells. *)
Fixpoint copy_loop (n : nat) (l position : Z) (buffer_from_net demuxed_packet : list byte)
    : run (list byte * Z) :=
  match n with
  | O => ret (demuxed_packet, position)
  | S n' =>
      c <- net_load buffer_from_net position ;;
      (if MTU <=? l then emit (Overrun Demuxed_packet l) else ret tt) ;;
      copy_loop n' (l + 1) (position + 1) buffer_from_net (demuxed_packet ++ [c])
  end.

(** [cwrite (tap_fd, demuxed_packet, packet_length)] (lines 129-138): the
    event records the call of [write] with the bytes handed to it; the write
    is taken to succeed (on a failed one [cwrite] exits the program). *)
Definition cwrite (buf : list byte) (n : Z) : run unit :=
  emit (TapWrite (firstn (Z.to_nat n) buf)).

(** Lines 802-913: the decompression block; yields [status], the new
    [demuxed_packet] and [packet_length]. *)
Definition decompress_block (cfg : config) (nread_from_net : Z)
    (demuxed_packet : list byte) (packet_length : Z) (decompressor : decomp_ctx)
    : run (rohc_status_t * list byte * Z * decomp_ctx) :=
  let '(decompressor, status, ip_packet_d) :=
    rohc_decompress3 decompressor (firstn (Z.to_nat packet_length) demuxed_packet) in
  if status_is_OK status then
    match ip_packet_d with
    | _ :: _ =>
        (* packet_length = ip_packet_d.len;
           memcpy (demuxed_packet, rohc_buf_data_at (ip_packet_d, 0), packet_length) *)
        let packet_length := Z.of_nat (length ip_packet_d) in
        (if MTU <? packet_length then emit (Overrun Demuxed_packet MTU) else ret tt) ;;
        ret (status, ip_packet_d ++ skipn (length ip_packet_d) demuxed_packet,
             packet_length, decompressor)
    | [] =>
        logf cfg (rec_ROHC_feedback nread_from_net) ;;
        ret (status, demuxed_packet, packet_length, decompressor)
    end
  else
    logf cfg (error_decomp_failed nread_from_net) ;;
    ret (status, demuxed_packet, packet_length, decompressor).

(** Lines 737-927: one turn of [while (position < nread_from_net)]; yields
    the new [position] and decompressor context.  Without compression
    [status] is not read (line 917), [ROHC_STATUS_OK] stands for it.  A
    negative [packet_length] that passes the test of line 790 reaches
    [cwrite] (or [rohc_packet_d.len]) as a byte count: the turn stops there
    with [NegativeLength]. *)
Definition demux_packet (cfg : config) (nread_from_net : Z)
    (buffer_from_net : list byte) (position : Z) (decompressor : decomp_ctx)
    : run (Z * decomp_ctx) :=
  separator <- demux_separator buffer_from_net position ;;
  match separator with
  | None =>
      (* position = nread_from_net *)
      logf cfg (error_bad_separator nread_from_net) ;;
      ret (nread_from_net, decompressor)
  | Some (packet_length, position) =>
      ' (demuxed_packet, position) <-
          copy_loop (Z.to_nat packet_length) 0 position buffer_from_net [] ;;
      if position >? nread_from_net then
        logf cfg (error_demux_bad_length nread_from_net) ;;
        ret (position, decompressor)
      else if packet_length <? 0 then
        raise (NegativeLength packet_length)
      else
        ' (status, demuxed_packet, packet_length, decompressor) <-
            (if compress_headers cfg
             then decompress_block cfg nread_from_net demuxed_packet packet_length
                    decompressor
             else ret (ROHC_STATUS_OK, demuxed_packet, packet_length, decompressor)) ;;
        (if negb (compress_headers cfg) || (compress_headers cfg && status_is_OK status)
         then cwrite demuxed_packet packet_length ;; logf cfg (sent_demuxed packet_length)
         else ret tt) ;;
        ret (position, decompressor)
  end.

(** Lines 733-928: [position = 0; while (position < nread_from_net) ...].
    Every turn moves [position] forward, so [nread_from_net] turns are
    enough ([demux_loop_fuel]). *)
Fixpoint demux_loop (fuel : nat) (cfg : config) (nread_from_net : Z)
    (buffer_from_net : list byte) (position : Z) (decompressor : decomp_ctx)
    : run decomp_ctx :=
  if position <? nread_from_net then
    match fuel with
    | O => raise OutOfFuel
    | S fuel' =>
        ' (position, decompressor) <-
            demux_packet cfg nread_from_net buffer_from_net position decompressor ;;
        demux_loop fuel' cfg nread_from_net buffer_from_net position decompressor
    end
  else ret decompressor.

(** The state that lives across turns of the main loop. *)
Record state := {
  buffer_from_net : list byte;        (* char [BUFSIZE] *)
  muxed_packet : list byte;           (* the cells 0 .. size_muxed_packet-1 of char [MTU] *)
  num_pkts_stored_from_tap : Z;       (* int *)
  time_last_sent_in_microsec : Z;     (* uint64_t *)
  compressor : comp_ctx;
  decompressor : decomp_ctx
}.

(** [size_muxed_packet] counts the cells of [muxed_packet] in use: every
    store is at index [size_muxed_packet] and followed by its increment, and
    [size_muxed_packet = 0] empties the buffer. *)
Definition size_muxed_packet (st : state) : Z := Z.of_nat (length (muxed_packet st)).

(** [recvfrom (net_fd, buffer_from_net, BUFSIZE, ...)] stores the datagram at
    the start of the array and leaves the other cells as they were. *)
Definition recvfrom (datagram old : list byte) : list byte :=
  datagram ++ skipn (length datagram) old.

(** Lines 712-941.  [datagram] is the UDP datagram that arrived and
    [remote_port] is [ntohs (remote.sin_port)].  [recvfrom] is given
    [BUFSIZE] as the size of [buffer_from_net] (line 715): it stores the
    first [BUFSIZE] bytes of the datagram, drops the others and returns the
    number of bytes stored.  The call is taken to succeed.  The address it
    leaves in [remote], which every [sendto] uses, is not part of the state:
    a [SendTo] event records the bytes sent, not where they go. *)
Definition net_event (cfg : config) (st : state) (datagram : list byte) (remote_port : Z)
    : run state :=
  let received := firstn (Z.to_nat BUFSIZE) datagram in
  let nread_from_net := Z.of_nat (length received) in
  let buffer_from_net := recvfrom received (buffer_from_net st) in
  let st := {| buffer_from_net := buffer_from_net;
               muxed_packet := muxed_packet st;
               num_pkts_stored_from_tap := num_pkts_stored_from_tap st;
               time_last_sent_in_microsec := time_last_sent_in_microsec st;
               compressor := compressor st;
               decompressor := decompressor st |} in
  if port cfg =? remote_port then
    logf cfg (rec_muxed nread_from_net) ;;
    decompressor <- demux_loop (Z.to_nat nread_from_net) cfg nread_from_net
                      buffer_from_net 0 (decompressor st) ;;
    ret {| buffer_from_net := buffer_from_net;
           muxed_packet := muxed_packet st;
           num_pkts_stored_from_tap := num_pkts_stored_from_tap st;
           time_last_sent_in_microsec := time_last_sent_in_microsec st;
           compressor := compressor st;
           decompressor := decompressor |}
  else
    cwrite buffer_from_net nread_from_net ;;
    logf cfg (forward_native nread_from_net) ;;
    ret st.

(** *** TAP to NET: compress and multiplex *)

(** The accumulator fields of the state, updated together. *)
Definition set_accumulator (st : state) (muxed : list byte) (num_pkts : Z)
    (time_last_sent : Z) (comp : comp_ctx) : state :=
  {| buffer_from_net := buffer_from_net st;
     muxed_packet := muxed;
     num_pkts_stored_from_tap := num_pkts;
     time_last_sent_in_microsec := time_last_sent;
     compressor := comp;
     decompressor := decompressor st |}.

(** [muxed_packet[size_muxed_packet] = b; size_muxed_packet ++] for each
    byte of [bytes] in turn (lines 1087-1126).  [muxed_packet] has [MTU]
    cells. *)
Fixpoint store_loop (bytes muxed : list byte) : run (list byte) :=
  match bytes with
  | [] => ret muxed
  | b :: bytes' =>
      (if MTU <=? Z.of_nat (length muxed)
       then emit (Overrun Muxed_packet (Z.of_nat (length muxed)))
       else ret tt) ;;
      store_loop bytes' (muxed ++ [b])
  end.

(** Lines 963-1053: the compression block; yields the bytes that replace
    the packet and the new compressor context.  Whatever the status, the
    content of [rohc_packet] is copied over the packet (lines 1047-1051). *)
Definition compress_block (cfg : config) (st : state) (packet_read_from_tap : list byte)
    : run (list byte * comp_ctx) :=
  let '(comp, status, rohc_packet) := rohc_compress4 (compressor st) packet_read_from_tap in
  match status with
  | ROHC_STATUS_SEGMENT => ret tt
  | ROHC_STATUS_OK => ret tt
  | _ => logf cfg (error_compr_failed (Z.of_nat (length packet_read_from_tap)))
  end ;;
  ret (rohc_packet, comp).

(** Lines 1055-1059. *)
Definition predicted_size_muxed_packet (size_muxed size_packet_read_from_tap : Z) : Z :=
  if size_packet_read_from_tap <? 64
  then size_muxed + 1 + size_packet_read_from_tap
  else size_muxed + 2 + size_packet_read_from_tap.

(** Lines 1062-1075: the buffer is sent without the packet that has just
    arrived. *)
Definition flush_mtu (cfg : config) (st : state) : run state :=
  emit (SendTo (muxed_packet st)) ;;
  logf cfg (sent_muxed (size_muxed_packet st) (num_pkts_stored_from_tap st) ReasonMTU) ;;
  ret (set_accumulator st [] 0 (time_last_sent_in_microsec st) (compressor st)).

(** Lines 1135-1165: the three triggers, tested after the packet was
    stored. *)
Definition flush_trigger (cfg : config) (st : state) (time_in_microsec : Z) : run state :=
  let time_difference := uint64 (time_in_microsec - time_last_sent_in_microsec st) in
  let numpacket_limit := num_pkts_stored_from_tap st =? limit_numpackets_tap cfg in
  let size_limit := size_muxed_packet st >? size_threshold cfg in
  let timed_out := time_difference >? timeout cfg in
  if numpacket_limit || size_limit || timed_out then
    emit (SendTo (muxed_packet st)) ;;
    logf cfg (sent_muxed (size_muxed_packet st) (num_pkts_stored_from_tap st)
                (ReasonTrigger numpacket_limit size_limit timed_out)) ;;
    ret (set_accumulator st [] 0 time_in_microsec (compressor st))
  else ret st.

(** Lines 946-1166.  [packet] is what [cread (tap_fd, ..., BUFSIZE)]
    delivered (at most [BUFSIZE] bytes, so that its length fits
    [uint16_t]); [time_in_microsec] is the clock read at line 1129. *)
Definition tap_event (cfg : config) (st : state) (packet : list byte)
    (time_in_microsec : Z) : run state :=
  logf cfg (rec_native (Z.of_nat (length packet))) ;;
  ' (packet_read_from_tap, comp) <-
      (if compress_headers cfg then compress_block cfg st packet
       else ret (packet, compressor st)) ;;
  let st := set_accumulator st (muxed_packet st) (num_pkts_stored_from_tap st)
              (time_last_sent_in_microsec st) comp in
  let size_packet_read_from_tap := Z.of_nat (length packet_read_from_tap) in
  st <- (if predicted_size_muxed_packet (size_muxed_packet st) size_packet_read_from_tap >? MTU
         then flush_mtu cfg st else ret st) ;;
  let num_pkts := num_pkts_stored_from_tap st + 1 in
  muxed <- store_loop (mux_separator size_packet_read_from_tap) (muxed_packet st) ;;
  muxed <- store_loop packet_read_from_tap muxed ;;
  flush_trigger cfg
    (set_accumulator st muxed num_pkts (time_last_sent_in_microsec st) comp)
    time_in_microsec.

(** *** Period expired (lines 1172-1198) *)
Definition period_event (cfg : config) (st : state) (time_in_microsec : Z) : run state :=
  if num_pkts_stored_from_tap st >? 0 then
    emit (SendTo (muxed_packet st)) ;;
    logf cfg (sent_muxed (size_muxed_packet st) (num_pkts_stored_from_tap st) ReasonPeriod) ;;
    ret (set_accumulator st [] 0 time_in_microsec (compressor st))
  else
    ret (set_accumulator st (muxed_packet st) (num_pkts_stored_from_tap st)
           time_in_microsec (compressor st)).

(** *** The main loop (lines 676-1200)

    What [select] reports decides the branch: the socket first, then the
    tun/tap device, then the expiry of the period. *)
Inductive input :=
| NetReadable (datagram : list byte) (remote_port : Z)
| TapReadable (packet : list byte) (time_in_microsec : Z)
| PeriodExpired (time_in_microsec : Z).

Definition main_loop_turn (cfg : config) (st : state) (i : input) : run state :=
  match i with
  | NetReadable datagram remote_port => net_event cfg st datagram remote_port
  | TapReadable packet time_in_microsec => tap_event cfg st packet time_in_microsec
  | PeriodExpired time_in_microsec => period_event cfg st time_in_microsec
  end.

Fixpoint main_loop (cfg : config) (st : state) (inputs : list input) : run state :=
  match inputs with
  | [] => ret st
  | i :: inputs' => st <- main_loop_turn cfg st i ;; main_loop cfg st inputs'
  end.

End EventLoop.

Arguments buffer_from_net {comp_ctx decomp_ctx} s.
Arguments muxed_packet {comp_ctx decomp_ctx} s.
Arguments num_pkts_stored_from_tap {comp_ctx decomp_ctx} s.
Arguments time_last_sent_in_microsec {comp_ctx decomp_ctx} s.
Arguments compressor {comp_ctx decomp_ctx} s.
Arguments decompressor {comp_ctx decomp_ctx} s.
Arguments size_muxed_packet {comp_ctx decomp_ctx} st.

Arguments state : clear implicits.
Arguments decompress_block {decomp_ctx} rohc_decompress3 cfg nread_from_net demuxed_packet
  packet_length decompressor.
Arguments demux_packet char_signed {decomp_ctx} rohc_decompress3 cfg nread_from_net
  buffer_from_net position decompressor.
Arguments demux_loop char_signed {decomp_ctx} rohc_decompress3 fuel cfg nread_from_net
  buffer_from_net position decompressor.
Arguments net_event char_signed {comp_ctx decomp_ctx} rohc_decompress3 cfg st datagram
  remote_port.
Arguments set_accumulator {comp_ctx decomp_ctx} st muxed num_pkts time_last_sent comp.
Arguments compress_block {comp_ctx decomp_ctx} rohc_compress4 cfg st packet_read_from_tap.
Arguments flush_mtu {comp_ctx decomp_ctx} cfg st.
Arguments flush_trigger {comp_ctx decomp_ctx} cfg st time_in_microsec.
Arguments tap_event {comp_ctx decomp_ctx} rohc_compress4 cfg st packet time_in_microsec.
Arguments period_event {comp_ctx decomp_ctx} cfg st time_in_microsec.
Arguments main_loop_turn char_signed {comp_ctx decomp_ctx} rohc_compress4 rohc_decompress3
  cfg st i.
Arguments main_loop char_signed {comp_ctx decomp_ctx} rohc_compress4 rohc_decompress3
  cfg st inputs.

(** ** Concrete instances used by the examples *)

(** Compression disabled: the library is never called. *)
Definition no_rohc (c : unit) (p : list byte) : unit * rohc_status_t * list byte :=
  (c, ROHC_STATUS_ERROR, []).

(** A decompressor that receives a feedback-only packet: the call succeeds
    and nothing is decompressed. *)
Definition feedback_only (c : unit) (p : list byte) : unit * rohc_status_t * list byte :=
  (c, ROHC_STATUS_OK, []).

(** The state on entry to the main loop, with zeroed buffers. *)
Definition initial_state : state unit unit :=
  {| buffer_from_net := repeat x00 (Z.to_nat BUFSIZE);
     muxed_packet := [];
     num_pkts_stored_from_tap := 0;
     time_last_sent_in_microsec := 0;
     compressor := tt;
     decompressor := tt |}.

(** The program started with a log file and no trigger option: every
    packet is sent at once. *)
Definition plain_config : config :=
  {| port := PORT;
     compress_headers := false;
     log_file := true;
     limit_numpackets_tap := default_limit_numpackets_tap MAXTHRESHOLD MAXTIMEOUT MAXTIMEOUT 0;
     size_threshold := MAXTHRESHOLD;
     timeout := MAXTIMEOUT;
     period := MAXTIMEOUT |}.

(** Started with [-P 10000]: up to [MAXPKTS] packets are stored. *)
Definition period_config : config :=
  {| port := PORT;
     compress_headers := false;
     log_file := true;
     limit_numpackets_tap := default_limit_numpackets_tap MAXTHRESHOLD MAXTIMEOUT 10000 0;
     size_threshold := MAXTHRESHOLD;
     timeout := MAXTIMEOUT;
     period := 10000 |}.

(** Started with [-r]: header compression enabled. *)
Definition rohc_config : config :=
  {| port := PORT;
     compress_headers := true;
     log_file := true;
     limit_numpackets_tap := default_limit_numpackets_tap MAXTHRESHOLD MAXTIMEOUT MAXTIMEOUT 0;
     size_threshold := MAXTHRESHOLD;
     timeout := MAXTIMEOUT;
     period := MAXTIMEOUT |}.

(** ** The layout of a bundle

    What lines 1083-1126 store for one packet, and for a sequence of packets
    in the order of their arrival. *)
Definition frame (packet : list byte) : list byte :=
  mux_separator (Z.of_nat (length packet)) ++ packet.

Definition frames (packets : list (list byte)) : list byte :=
  flat_map frame packets.

(** The length the demultiplexer computes from the separator written for
    [len]: where plain [char] is signed, a second separator byte of 128 or
    more is read as a negative number. *)
Definition decoded_length (char_signed : bool) (len : Z) : Z :=
  if char_signed && (64 <=? len) && (128 <=? Z.rem len 256) then len - 256 else len.

(** The lengths whose separator the demultiplexer reads back: where plain
    [char] is signed, the low byte of the length has to be below 128. *)
Definition length_read_back (char_signed : bool) (len : Z) : Prop :=
  0 <= len <= 16383 /\ (char_signed = false \/ Z.rem len 256 < 128).

(** The payload offered to the accumulator for a packet read from the
    tun/tap device, with the compressor context it leaves: the packet itself,
    or what [rohc_compress4] put in [rohc_packet] (lines 1047-1051). *)
Definition offered {comp_ctx decomp_ctx : Type}
    (rohc_compress4 : comp_ctx -> list byte -> comp_ctx * rohc_status_t * list byte)
    (cfg : config) (st : state comp_ctx decomp_ctx) (packet : list byte)
    : list byte * comp_ctx :=
  if compress_headers cfg
  then let '(comp, _, rohc_packet) := rohc_compress4 (compressor st) packet in
       (rohc_packet, comp)
  else (packet, compressor st).

(** Whether one of the three triggers of line 1135 fires. *)
Definition fires {comp_ctx decomp_ctx : Type} (cfg : config)
    (st : state comp_ctx decomp_ctx) (time_in_microsec : Z) : bool :=
  (num_pkts_stored_from_tap st =? limit_numpackets_tap cfg)
  || (size_muxed_packet st >? size_threshold cfg)
  || (uint64 (time_in_microsec - time_last_sent_in_microsec st) >? timeout cfg).

(** The packets read from the tun/tap device in a sequence of inputs, and
    the inputs that concern the sender only. *)
Definition tap_packets (inputs : list input) : list (list byte) :=
  flat_map (fun i => match i with TapReadable packet _ => [packet] | _ => [] end) inputs.

Definition sender_input (i : input) : Prop :=
  match i with NetReadable _ _ => False | _ => True end.

(** ** The helper functions of the program *)

(** [GetTimeStamp] (lines 213-217): [tv.tv_sec*(uint64_t)1000000+tv.tv_usec],
    computed in [uint64_t]; [tv_sec] and [tv_usec] are the fields that
    [gettimeofday] filled. *)
Definition GetTimeStamp (tv_sec tv_usec : Z) : Z :=
  uint64 (uint64 (uint64 tv_sec * 1000000) + uint64 tv_usec).

(** [do_debug] (lines 162-171): the text that reaches stderr, with [debug]
    the global verbosity. *)
Definition do_debug (debug level : Z) (msg : string) : string :=
  if level <=? debug then msg else EmptyString.

(** [PrintByte] (lines 266-276): [for (i=7; i>=0; i--)] prints "1" or "0"
    for [b[i]]. *)
Definition PrintByte (debug debug_level : Z) (b : list bool) : string :=
  String.concat EmptyString
    (map (fun i => do_debug debug debug_level
                     (if nth i b false then "1"%string else "0"%string))
         [7; 6; 5; 4; 3; 2; 1; 0]%nat).

(** The number a string of binary digits denotes; [None] when a
    character is neither "0" nor "1". *)
Fixpoint binary_value (acc : Z) (digits : string) : option Z :=
  match digits with
  | EmptyString => Some acc
  | String c digits' =>
      if Ascii.eqb c "1"%char then binary_value (2 * acc + 1) digits'
      else if Ascii.eqb c "0"%char then binary_value (2 * acc) digits'
      else None
  end.

(** The wait passed to [select] (lines 683-692): the time left until the
    period expires, in [uint64_t] arithmetic. *)
Definition microseconds_left (period time_in_microsec time_last_sent_in_microsec : Z) : Z :=
  if period >? uint64 (time_in_microsec - time_last_sent_in_microsec)
  then uint64 (period - uint64 (time_in_microsec - time_last_sent_in_microsec))
  else 0.

(** *** [cread] and [read_n] on a byte stream

    A descriptor that delivers a byte stream is modelled by what the
    successive calls of [read] find: some bytes (a call for [n] bytes takes at
    most [n] of them and leaves the others for the next call; no byte stands
    for a return of 0, the end of the file) or an error. *)
Inductive available :=
| Data (bytes : list byte)
| ReadError.

Inductive reading :=
| Returned (value : Z) (buf : list byte) (fd : list available)
| Exited                      (* exit (1) in cread *)
| ReadOutOfFuel.

(** [cread] (lines 114-123): [None] when [read] fails and the program
    exits; otherwise the bytes read and the descriptor after the call. *)
Definition cread (fd : list available) (n : Z) : option (list byte * list available) :=
  match fd with
  | [] => Some ([], [])
  | ReadError :: _ => None
  | Data bytes :: fd' =>
      let taken := firstn (Z.to_nat n) bytes in
      match skipn (Z.to_nat n) bytes with
      | [] => Some (taken, fd')
      | rest => Some (taken, Data rest :: fd')
      end
  end.

(** [read_n] (lines 144-157): [while (left > 0)], with [buf] the bytes
    stored so far. *)
Fixpoint read_n_loop (fuel : nat) (fd : list available) (buf : list byte) (left n : Z)
    : reading :=
  if left >? 0 then
    match fuel with
    | O => ReadOutOfFuel
    | S fuel' =>
        match cread fd left with
        | None => Exited
        | Some (taken, fd') =>
            let nread := Z.of_nat (List.length taken) in
            if nread =? 0 then Returned 0 (buf ++ taken) fd'
            else read_n_loop fuel' fd' (buf ++ taken) (left - nread) n
        end
    end
  else Returned n buf fd.

Definition read_n (fd : list available) (n : Z) : reading :=
  read_n_loop (Z.to_nat n) fd [] n n.

(** The bytes a stream still holds before its first error. *)
Fixpoint stream_bytes (fd : list available) : list byte :=
  match fd with
  | Data bytes :: fd' => bytes ++ stream_bytes fd'
  | _ => []
  end.

(** ** The receive path with compression

    What lines 802-925 give the tun/tap device for the payloads [ps] of a
    bundle, and the decompressor context they leave: every payload is handed
    to [rohc_decompress3] with the context the one before left; on
    [ROHC_STATUS_OK] the decompressed packet is written, or the payload as it
    came when nothing was decompressed; on any other status nothing is. *)
Fixpoint decompressed {decomp_ctx : Type}
    (rohc_decompress3 : decomp_ctx -> list byte -> decomp_ctx * rohc_status_t * list byte)
    (d : decomp_ctx) (ps : list (list byte)) : list (list byte) * decomp_ctx :=
  match ps with
  | [] => ([], d)
  | p :: ps' =>
      let '(d', status, ip_packet_d) := rohc_decompress3 d p in
      let written :=
        if status_is_OK status
        then [match ip_packet_d with [] => p | _ :: _ => ip_packet_d end]
        else [] in
      let '(rest, d'') := decompressed rohc_decompress3 d' ps' in
      (written ++ rest, d'')
  end.

(** * Properties *)

(** ** Traces and results of sequenced computations *)

Lemma bind_ret_l {A B : Type} (a : A) (k : A -> run B) : bind (ret a) k = k a.
Proof. unfold bind, ret. destruct (k a). reflexivity. Qed.

Lemma outcome_bind {A B : Type} (m : run A) (k : A -> run B) :
  outcome (bind m k) =
  match outcome m with Ok a => outcome (k a) | Fault f => Fault f end.
Proof.
  destruct m as [t [a | f]]; cbn; [destruct (k a)|]; reflexivity.
Qed.

Lemma trace_bind {A B : Type} (m : run A) (k : A -> run B) :
  trace (bind m k) =
  trace m ++ match outcome m with Ok a => trace (k a) | Fault _ => [] end.
Proof.
  destruct m as [t [a | f]]; cbn; [destruct (k a); reflexivity|].
  now rewrite app_nil_r.
Qed.

Lemma run_eta {A : Type} (m : run A) : m = (trace m, outcome m).
Proof. now destruct m. Qed.

Lemma tap_writes_app (t1 t2 : list event) :
  tap_writes (t1 ++ t2) = tap_writes t1 ++ tap_writes t2.
Proof. apply flat_map_app. Qed.

Lemma sent_datagrams_app (t1 t2 : list event) :
  sent_datagrams (t1 ++ t2) = sent_datagrams t1 ++ sent_datagrams t2.
Proof. apply flat_map_app. Qed.

Lemma log_records_app (t1 t2 : list event) :
  log_records (t1 ++ t2) = log_records t1 ++ log_records t2.
Proof. apply flat_map_app. Qed.

Lemma overruns_app (t1 t2 : list event) :
  overruns (t1 ++ t2) = overruns t1 ++ overruns t2.
Proof. apply flat_map_app. Qed.

Lemma net_reads_app (t1 t2 : list event) :
  net_reads (t1 ++ t2) = net_reads t1 ++ net_reads t2.
Proof. apply flat_map_app. Qed.

(** A log record is neither a write to the device nor a datagram. *)
Lemma logf_trace (cfg : config) (r : log_record) :
  tap_writes (trace (logf cfg r)) = [] /\
  sent_datagrams (trace (logf cfg r)) = [] /\
  overruns (trace (logf cfg r)) = [] /\
  net_reads (trace (logf cfg r)) = [] /\
  log_records (trace (logf cfg r)) = (if log_file cfg then [r] else []) /\
  outcome (logf cfg r) = Ok tt.
Proof. unfold logf. destruct (log_file cfg); repeat split. Qed.

(** ** The bits of a separator byte *)

Lemma FromByte_bit7 (c : byte) :
  nth 7 (FromByte (byte.unsigned c)) false = (128 <=? byte.unsigned c).
Proof. destruct c; reflexivity. Qed.

Lemma FromByte_bit6 (c : byte) :
  nth 6 (FromByte (byte.unsigned c)) false = (64 <=? byte.unsigned c mod 128).
Proof. destruct c; reflexivity. Qed.

Lemma ToByte_FromByte (c : byte) : ToByte (FromByte (byte.unsigned c)) = byte.unsigned c.
Proof. destruct c; reflexivity. Qed.

Lemma unsigned_char_of_int (v : Z) :
  0 <= v < 256 -> byte.unsigned (char_of_int v) = v.
Proof.
  intros H. unfold char_of_int. rewrite byte.unsigned_of_Z.
  unfold byte.wrap. apply Z.mod_small. lia.
Qed.

(** A [char] below 128 has the same value whether plain [char] is signed or
    not. *)
Lemma char_val_small (char_signed : bool) (c : byte) :
  byte.unsigned c < 128 -> char_val char_signed c = byte.unsigned c.
Proof.
  intros H. unfold char_val.
  destruct (Z.leb_spec 128 (byte.unsigned c)); [lia|].
  now rewrite andb_false_r.
Qed.

Lemma char_val_unsigned (c : byte) : char_val false c = byte.unsigned c.
Proof. reflexivity. Qed.

(** The length of the separator written for a packet. *)
Lemma mux_separator_length (size : Z) :
  Z.of_nat (length (mux_separator size)) = (if size <? 64 then 1 else 2).
Proof. unfold mux_separator. now destruct (size <? 64). Qed.

(** ** Loads from [buffer_from_net] *)

Lemma net_load_in (buf : list byte) (position : Z) (c : byte) :
  0 <= position < BUFSIZE ->
  nth_error buf (Z.to_nat position) = Some c ->
  net_load buf position = ([NetRead position], Ok c).
Proof.
  intros [H0 H1] Hc. unfold net_load.
  destruct (Z.leb_spec 0 position); [|lia].
  destruct (Z.ltb_spec position BUFSIZE); [|lia].
  cbn. now rewrite Hc.
Qed.

Lemma net_load_trace (buf : list byte) (position : Z) :
  trace (net_load buf position) = [NetRead position].
Proof.
  unfold net_load.
  destruct ((0 <=? position) && (position <? BUFSIZE));
    [destruct (nth_error buf (Z.to_nat position))|]; reflexivity.
Qed.

Lemma net_load_fault (buf : list byte) (position : Z) (f : fault) :
  outcome (net_load buf position) = Fault f -> f = LoadOutside Buffer_from_net position.
Proof.
  unfold net_load.
  destruct ((0 <=? position) && (position <? BUFSIZE));
    [destruct (nth_error buf (Z.to_nat position))|]; cbn; congruence.
Qed.

Lemma net_load_outside (buf : list byte) (position : Z) :
  BUFSIZE <= position ->
  net_load buf position = ([NetRead position], Fault (LoadOutside Buffer_from_net position)).
Proof.
  intros H. unfold net_load.
  destruct (Z.ltb_spec position BUFSIZE); [lia|].
  now rewrite andb_false_r.
Qed.

(** ** The separator read by the demultiplexer *)

Lemma demux_separator_position (char_signed : bool) (buf : list byte)
    (position len p' : Z) :
  outcome (demux_separator char_signed buf position) = Ok (Some (len, p')) ->
  p' = position + 1 \/ p' = position + 2.
Proof.
  unfold demux_separator. rewrite outcome_bind.
  destruct (outcome (net_load buf position)) as [c | f]; [|discriminate].
  destruct (nth 7 (FromByte (byte.unsigned c)) false); [discriminate|].
  destruct (nth 6 (FromByte (byte.unsigned c)) false); cbn [negb].
  - rewrite outcome_bind.
    destruct (outcome (net_load buf (position + 1))); [|discriminate].
    cbn. intros [= _ <-]. now right.
  - cbn. intros [= _ <-]. now left.
Qed.

Lemma demux_separator_fault (char_signed : bool) (buf : list byte) (position : Z)
    (f : fault) :
  outcome (demux_separator char_signed buf position) = Fault f ->
  exists i, f = LoadOutside Buffer_from_net i.
Proof.
  unfold demux_separator. rewrite outcome_bind.
  destruct (outcome (net_load buf position)) as [c | f0] eqn:E0.
  - destruct (nth 7 (FromByte (byte.unsigned c)) false); [discriminate|].
    destruct (nth 6 (FromByte (byte.unsigned c)) false); cbn [negb]; [|discriminate].
    rewrite outcome_bind.
    destruct (outcome (net_load buf (position + 1))) eqn:E1; [discriminate|].
    intros [= <-]. eexists. eapply net_load_fault, E1.
  - intros [= <-]. eexists. eapply net_load_fault, E0.
Qed.

(** The separator only loads from the array. *)
Lemma demux_separator_trace (char_signed : bool) (buf : list byte) (position : Z) :
  let t := trace (demux_separator char_signed buf position) in
  tap_writes t = [] /\ log_records t = [] /\ sent_datagrams t = [] /\ overruns t = [].
Proof.
  cbv zeta. unfold demux_separator. rewrite trace_bind, net_load_trace.
  destruct (outcome (net_load buf position)) as [c | f]; [|repeat split].
  destruct (nth 7 (FromByte (byte.unsigned c)) false); [repeat split|].
  destruct (nth 6 (FromByte (byte.unsigned c)) false); cbn [negb]; [|repeat split].
  rewrite trace_bind, net_load_trace.
  destruct (outcome (net_load buf (position + 1))); repeat split.
Qed.

(** ** The copy of a packet out of [buffer_from_net] *)

Lemma copy_loop_position (n : nat) (l position : Z) (buf dem dem' : list byte) (p' : Z) :
  outcome (copy_loop n l position buf dem) = Ok (dem', p') ->
  p' = position + Z.of_nat n.
Proof.
  revert l position dem. induction n as [|n IH]; intros l position dem.
  - cbn. intros [= _ <-]. lia.
  - cbn [copy_loop]. rewrite outcome_bind.
    destruct (outcome (net_load buf position)); [|discriminate].
    rewrite outcome_bind.
    destruct (MTU <=? l); cbn [outcome emit ret snd]; intros H; apply IH in H; lia.
Qed.

Lemma copy_loop_fault (n : nat) (l position : Z) (buf dem : list byte) (f : fault) :
  outcome (copy_loop n l position buf dem) = Fault f ->
  exists i, f = LoadOutside Buffer_from_net i.
Proof.
  revert l position dem. induction n as [|n IH]; intros l position dem.
  - discriminate.
  - cbn [copy_loop]. rewrite outcome_bind.
    destruct (outcome (net_load buf position)) eqn:E.
    + rewrite outcome_bind.
      destruct (MTU <=? l); cbn [outcome emit ret snd]; apply IH.
    + intros [= <-]. eexists. eapply net_load_fault, E.
Qed.

(** The copy writes nothing to the device, sends nothing and logs nothing. *)
Lemma copy_loop_trace (n : nat) (l position : Z) (buf dem : list byte) :
  let t := trace (copy_loop n l position buf dem) in
  tap_writes t = [] /\ log_records t = [] /\ sent_datagrams t = [].
Proof.
  cbv zeta. revert l position dem. induction n as [|n IH]; intros l position dem.
  - repeat split.
  - cbn [copy_loop]. rewrite trace_bind, net_load_trace.
    destruct (outcome (net_load buf position)) as [c | f]; [|repeat split].
    rewrite trace_bind.
    specialize (IH (l + 1) (position + 1) (dem ++ [c])).
    destruct (MTU <=? l); cbn [outcome trace emit ret snd fst app];
      rewrite ?tap_writes_app, ?log_records_app, ?sent_datagrams_app; cbn; exact IH.
Qed.

(** ** One turn of the demultiplexing loop, and its termination *)

Lemma logf_outcome (cfg : config) (r : log_record) : outcome (logf cfg r) = Ok tt.
Proof. unfold logf. now destruct (log_file cfg). Qed.

Lemma bind_ext {A B : Type} (m : run A) (k1 k2 : A -> run B) :
  (forall a, outcome m = Ok a -> k1 a = k2 a) -> bind m k1 = bind m k2.
Proof.
  destruct m as [t [a | f]]; cbn; intros H; [|reflexivity].
  now rewrite (H a eq_refl).
Qed.

Section Demultiplexer.

Variable char_signed : bool.
Variable decomp_ctx : Type.
Variable rohc_decompress3 : decomp_ctx -> list byte -> decomp_ctx * rohc_status_t * list byte.
Variable cfg : config.

(** The decompression block always runs to its end. *)
Lemma decompress_block_outcome (nread : Z) (dem : list byte) (len : Z) (d : decomp_ctx) :
  exists x, outcome (decompress_block rohc_decompress3 cfg nread dem len d) = Ok x.
Proof.
  unfold decompress_block.
  destruct (rohc_decompress3 d (firstn (Z.to_nat len) dem)) as [[d' status] ip].
  destruct (status_is_OK status).
  - destruct ip as [|b ip].
    + rewrite outcome_bind, logf_outcome. now eexists.
    + rewrite outcome_bind.
      destruct (MTU <? Z.of_nat (length (b :: ip))); now eexists.
  - rewrite outcome_bind, logf_outcome. now eexists.
Qed.

(** The guarded write of line 917 always runs to its end. *)
Lemma guarded_write_outcome (status : rohc_status_t) (dem : list byte) (len : Z) :
  outcome (if negb (compress_headers cfg) || (compress_headers cfg && status_is_OK status)
           then cwrite dem len ;; logf cfg (sent_demuxed len)
           else ret tt) = Ok tt.
Proof.
  destruct (negb (compress_headers cfg) || (compress_headers cfg && status_is_OK status));
    [|reflexivity].
  rewrite outcome_bind. cbn. apply logf_outcome.
Qed.

(** A turn that runs to its end leaves [position] further in the buffer. *)
Lemma demux_packet_progress (nread : Z) (buf : list byte) (position : Z) (d : decomp_ctx)
    (p' : Z) (d' : decomp_ctx) :
  position < nread ->
  outcome (demux_packet char_signed rohc_decompress3 cfg nread buf position d) = Ok (p', d') ->
  position < p'.
Proof.
  intros Hlt. unfold demux_packet. rewrite outcome_bind.
  destruct (outcome (demux_separator char_signed buf position)) as [[[len p1] |] | f] eqn:Es;
    [| |discriminate].
  - apply demux_separator_position in Es.
    rewrite outcome_bind.
    destruct (outcome (copy_loop (Z.to_nat len) 0 p1 buf [])) as [[dem p2] | f] eqn:Ec;
      [|discriminate].
    apply copy_loop_position in Ec.
    destruct (p2 >? nread).
    + rewrite outcome_bind, logf_outcome. cbn. intros [= <- _]. lia.
    + destruct (len <? 0); [discriminate|].
      rewrite outcome_bind.
      destruct (outcome (if compress_headers cfg
                         then decompress_block rohc_decompress3 cfg nread dem len d
                         else ret (ROHC_STATUS_OK, dem, len, d)))
        as [[[[status dem'] len'] d''] | f]; [|discriminate].
      rewrite outcome_bind, guarded_write_outcome. cbn. intros [= <- _]. lia.
  - rewrite outcome_bind, logf_outcome. cbn. intros [= <- _]. lia.
Qed.

(** A turn stops early only on a load outside [buffer_from_net] or on a
    negative length. *)
Lemma demux_packet_fault (nread : Z) (buf : list byte) (position : Z) (d : decomp_ctx)
    (f : fault) :
  outcome (demux_packet char_signed rohc_decompress3 cfg nread buf position d) = Fault f ->
  (exists i, f = LoadOutside Buffer_from_net i) \/ (exists n, n < 0 /\ f = NegativeLength n).
Proof.
  unfold demux_packet. rewrite outcome_bind.
  destruct (outcome (demux_separator char_signed buf position)) as [[[len p1] |] | f0] eqn:Es.
  - rewrite outcome_bind.
    destruct (outcome (copy_loop (Z.to_nat len) 0 p1 buf [])) as [[dem p2] | f1] eqn:Ec.
    + destruct (p2 >? nread).
      * rewrite outcome_bind, logf_outcome. discriminate.
      * destruct (Z.ltb_spec len 0).
        -- intros [= <-]. right. now exists len.
        -- rewrite outcome_bind.
           destruct (compress_headers cfg) eqn:Ecomp.
           ++ destruct (decompress_block_outcome nread dem len d)
                as [[[[status dem'] len'] d''] ->].
              pose proof (guarded_write_outcome status dem' len') as G.
              rewrite Ecomp in G.
              rewrite outcome_bind, G. discriminate.
           ++ cbn [outcome ret snd negb orb andb].
              rewrite !outcome_bind. cbn [cwrite emit outcome snd].
              rewrite logf_outcome. discriminate.
    + intros [= <-]. left. eapply copy_loop_fault, Ec.
  - rewrite outcome_bind, logf_outcome. discriminate.
  - intros [= <-]. left. eapply demux_separator_fault, Es.
Qed.

(** The loop ends: [nread_from_net - position] turns are enough, and more
    fuel does not change what the loop does. *)
Lemma demux_loop_fuel (nread : Z) (buf : list byte) (fuel1 fuel2 : nat) (position : Z)
    (d : decomp_ctx) :
  nread - position <= Z.of_nat fuel1 ->
  nread - position <= Z.of_nat fuel2 ->
  demux_loop char_signed rohc_decompress3 fuel1 cfg nread buf position d =
  demux_loop char_signed rohc_decompress3 fuel2 cfg nread buf position d.
Proof.
  revert fuel2 position d.
  induction fuel1 as [|fuel1 IH]; intros fuel2 position d H1 H2.
  - destruct fuel2; cbn [demux_loop];
      (destruct (Z.ltb_spec position nread); [lia | reflexivity]).
  - destruct fuel2 as [|fuel2]; cbn [demux_loop];
      (destruct (Z.ltb_spec position nread) as [Hlt | Hge]; [|reflexivity]); [lia|].
    apply bind_ext. intros [p' d'] Hok.
    apply demux_packet_progress in Hok; [|exact Hlt].
    apply IH; lia.
Qed.

Lemma demux_loop_terminates (nread : Z) (buf : list byte) (fuel : nat) (position : Z)
    (d : decomp_ctx) :
  nread - position <= Z.of_nat fuel ->
  outcome (demux_loop char_signed rohc_decompress3 fuel cfg nread buf position d)
    <> Fault OutOfFuel.
Proof.
  revert position d. induction fuel as [|fuel IH]; intros position d H.
  - cbn [demux_loop]. destruct (Z.ltb_spec position nread); [lia | discriminate].
  - cbn [demux_loop]. destruct (Z.ltb_spec position nread) as [Hlt | Hge]; [|discriminate].
    rewrite outcome_bind.
    destruct (outcome (demux_packet char_signed rohc_decompress3 cfg nread buf position d))
      as [[p' d'] | f] eqn:E.
    + apply demux_packet_progress in E; [|exact Hlt]. apply IH. lia.
    + apply demux_packet_fault in E. destruct E as [[i ->] | (n & _ & ->)]; discriminate.
Qed.

End Demultiplexer.

(** The handler of a datagram never stops for lack of fuel. *)
Lemma net_event_terminates (char_signed : bool) (comp_ctx decomp_ctx : Type)
    (rohc_decompress3 : decomp_ctx -> list byte -> decomp_ctx * rohc_status_t * list byte)
    (cfg : config) (st : state comp_ctx decomp_ctx) (datagram : list byte) (remote_port : Z) :
  outcome (net_event char_signed rohc_decompress3 cfg st datagram remote_port)
    <> Fault OutOfFuel.
Proof.
  unfold net_event. set (received := firstn (Z.to_nat BUFSIZE) datagram).
  destruct (port cfg =? remote_port).
  - rewrite outcome_bind, logf_outcome. cbv beta iota. rewrite outcome_bind.
    cbn [decompressor].
    pose proof (demux_loop_terminates char_signed decomp_ctx rohc_decompress3 cfg
                  (Z.of_nat (length received)) (recvfrom received (buffer_from_net st))
                  (Z.to_nat (Z.of_nat (length received))) 0 (decompressor st)) as T.
    destruct (outcome (demux_loop char_signed rohc_decompress3
                (Z.to_nat (Z.of_nat (length received))) cfg (Z.of_nat (length received))
                (recvfrom received (buffer_from_net st)) 0 (decompressor st))).
    + cbn. discriminate.
    + intros [= ->]. apply T; [lia | reflexivity].
  - rewrite outcome_bind. cbn [cwrite emit outcome snd].
    rewrite outcome_bind, logf_outcome. cbn. discriminate.
Qed.

(** ** The separator written by the sender, read by the demultiplexer *)

Lemma nth_error_middle {A : Type} (pre : list A) (x : A) (post : list A) :
  nth_error (pre ++ x :: post) (length pre) = Some x.
Proof. rewrite nth_error_app2, Nat.sub_diag by lia. reflexivity. Qed.

(** What the demultiplexer reads in the separator the sender wrote for a
    length up to 16383: the length itself, except where plain [char] is
    signed and the low byte of the length is 128 or more; it moves one byte
    forward for a length below 64 and two bytes otherwise. *)
Lemma demux_separator_written (char_signed : bool) (pre post : list byte) (len : Z) :
  0 <= len <= 16383 ->
  Z.of_nat (length pre) + (if len <? 64 then 1 else 2) <= BUFSIZE ->
  outcome (demux_separator char_signed (pre ++ mux_separator len ++ post)
             (Z.of_nat (length pre)))
  = Ok (Some (decoded_length char_signed len,
              Z.of_nat (length pre) + (if len <? 64 then 1 else 2))).
Proof.
  intros Hlen Hfit. unfold demux_separator, mux_separator, decoded_length in *.
  destruct (Z.ltb_spec len 64) as [Hs | Hl].
  - cbn [app]. rewrite (net_load_in _ _ (char_of_int len));
      [| lia | rewrite Nat2Z.id; apply nth_error_middle].
    rewrite outcome_bind. cbn [outcome snd].
    rewrite FromByte_bit7, FromByte_bit6, unsigned_char_of_int by lia.
    destruct (Z.leb_spec 128 len); [lia|].
    rewrite Z.mod_small by lia.
    destruct (Z.leb_spec 64 len); [lia|]. cbn [negb].
    rewrite char_val_small by (rewrite unsigned_char_of_int; lia).
    rewrite unsigned_char_of_int by lia.
    rewrite Z.rem_small by lia. rewrite andb_false_r. reflexivity.
  - pose proof (Z.quot_rem' len 256) as Hqr.
    pose proof (Z.rem_bound_pos len 256 ltac:(lia) ltac:(lia)) as Hr.
    assert (Hq : 0 <= Z.quot len 256 <= 63).
    { rewrite Z.quot_div_nonneg by lia. split; [apply Z.div_pos; lia|].
      enough (len / 256 < 64) by lia. apply Z.div_lt_upper_bound; lia. }
    set (q := Z.quot len 256) in *. set (r := Z.rem len 256) in *.
    cbn [app]. rewrite (net_load_in _ _ (char_of_int (q + 64)));
      [| lia | rewrite Nat2Z.id; apply nth_error_middle].
    rewrite outcome_bind. cbn [outcome snd].
    rewrite FromByte_bit7, FromByte_bit6, unsigned_char_of_int by lia.
    destruct (Z.leb_spec 128 (q + 64)); [lia|].
    rewrite Z.mod_small by lia.
    destruct (Z.leb_spec 64 (q + 64)); [|lia]. cbn [negb].
    rewrite (net_load_in _ _ (char_of_int r)); [| lia |].
    2:{ replace (Z.to_nat (Z.of_nat (length pre) + 1))
          with (length (pre ++ [char_of_int (q + 64)]))
          by (rewrite length_app; cbn; lia).
        change (pre ++ char_of_int (q + 64) :: char_of_int r :: post)
          with (pre ++ [char_of_int (q + 64)] ++ char_of_int r :: post).
        rewrite app_assoc. apply nth_error_middle. }
    rewrite outcome_bind. cbn [outcome snd ret].
    rewrite char_val_small by (rewrite unsigned_char_of_int; lia).
    rewrite unsigned_char_of_int by lia.
    assert (Hc2 : char_val char_signed (char_of_int r)
                  = if char_signed && (128 <=? r) then r - 256 else r).
    { unfold char_val. rewrite unsigned_char_of_int by lia. reflexivity. }
    rewrite Hc2.
    replace (Z.rem (q + 64) 64) with q.
    2:{ rewrite Z.rem_mod_nonneg by lia.
        symmetry. rewrite <- (Z.mod_small q 64) at 2 by lia.
        replace (q + 64) with (q + 1 * 64) by lia. apply Z.mod_add. lia. }
    destruct (Z.leb_spec 64 len); [|lia]. rewrite andb_true_r.
    do 3 f_equal. destruct (char_signed && (128 <=? r)); lia.
Qed.

(** On a target where plain [char] is unsigned, and on any target for the
    lengths whose low byte is below 128, the demultiplexer reads back the
    length the sender wrote. *)
Lemma demux_separator_mux_separator (char_signed : bool) (pre post : list byte) (len : Z) :
  length_read_back char_signed len ->
  Z.of_nat (length pre) + (if len <? 64 then 1 else 2) <= BUFSIZE ->
  outcome (demux_separator char_signed (pre ++ mux_separator len ++ post)
             (Z.of_nat (length pre)))
  = Ok (Some (len, Z.of_nat (length pre) + (if len <? 64 then 1 else 2))).
Proof.
  intros [Hlen Hlow] Hfit. rewrite demux_separator_written by assumption.
  do 3 f_equal. unfold decoded_length.
  destruct Hlow as [-> | Hlow]; [reflexivity|].
  destruct (Z.leb_spec 128 (Z.rem len 256)); [lia|]. now rewrite andb_false_r.
Qed.

(** Where plain [char] is signed, the lengths from 64 up whose low byte is
    128 or more are read 256 too short. *)
Lemma demux_separator_signed_char (pre post : list byte) (len : Z) :
  64 <= len <= 16383 ->
  128 <= Z.rem len 256 ->
  Z.of_nat (length pre) + 2 <= BUFSIZE ->
  outcome (demux_separator true (pre ++ mux_separator len ++ post) (Z.of_nat (length pre)))
  = Ok (Some (len - 256, Z.of_nat (length pre) + 2)).
Proof.
  intros Hlen Hlow Hfit.
  rewrite demux_separator_written by (destruct (Z.ltb_spec len 64); lia).
  unfold decoded_length.
  destruct (Z.ltb_spec len 64); [lia|].
  destruct (Z.leb_spec 64 len); [|lia].
  destruct (Z.leb_spec 128 (Z.rem len 256)); [|lia]. reflexivity.
Qed.

(** The copy of a packet that lies inside the array. *)
Lemma copy_loop_in (bytes : list byte) (l : Z) (pre post dem : list byte) :
  Z.of_nat (length pre) + Z.of_nat (length bytes) <= BUFSIZE ->
  outcome (copy_loop (length bytes) l (Z.of_nat (length pre)) (pre ++ bytes ++ post) dem)
  = Ok (dem ++ bytes, Z.of_nat (length pre) + Z.of_nat (length bytes)).
Proof.
  revert l pre dem. induction bytes as [|b bytes IH]; intros l pre dem H.
  - cbn. rewrite app_nil_r. do 3 f_equal. lia.
  - cbn [length copy_loop]. cbn [length] in H.
    rewrite (net_load_in _ _ b); [| lia | rewrite Nat2Z.id; apply nth_error_middle].
    rewrite outcome_bind. cbn [outcome snd]. rewrite outcome_bind.
    replace (outcome (if MTU <=? l then emit (Overrun Demuxed_packet l) else ret tt))
      with (@Ok unit tt) by (now destruct (MTU <=? l)).
    replace (Z.of_nat (length pre) + 1) with (Z.of_nat (length (pre ++ [b])))
      by (rewrite length_app; cbn [length]; lia).
    change (pre ++ (b :: bytes) ++ post) with (pre ++ [b] ++ bytes ++ post).
    rewrite (app_assoc pre [b]). rewrite IH by (rewrite length_app; cbn [length]; lia).
    rewrite <- app_assoc, length_app. cbn [length app]. do 2 f_equal. lia.
Qed.

(** A copy that stays below [MTU] cells does not leave [demuxed_packet]. *)
Lemma copy_loop_no_overrun (n : nat) (l position : Z) (buf dem : list byte) :
  l + Z.of_nat n <= MTU ->
  overruns (trace (copy_loop n l position buf dem)) = [].
Proof.
  revert l position dem. induction n as [|n IH]; intros l position dem H.
  - reflexivity.
  - cbn [copy_loop]. rewrite trace_bind, net_load_trace.
    destruct (outcome (net_load buf position)) as [c | f]; [|reflexivity].
    rewrite trace_bind. destruct (Z.leb_spec MTU l); [lia|].
    cbn [trace outcome ret fst snd]. rewrite !overruns_app.
    rewrite IH by lia. reflexivity.
Qed.

(** ** Demultiplexing a well-formed bundle (compression disabled) *)

Section RoundTrip.

Variable char_signed : bool.
Variable decomp_ctx : Type.
Variable rohc_decompress3 : decomp_ctx -> list byte -> decomp_ctx * rohc_status_t * list byte.
Variable cfg : config.
Hypothesis no_compression : compress_headers cfg = false.

Lemma frame_length (p : list byte) :
  Z.of_nat (length (frame p)) =
  (if Z.of_nat (length p) <? 64 then 1 else 2) + Z.of_nat (length p).
Proof. unfold frame. rewrite length_app, Nat2Z.inj_add, mux_separator_length. lia. Qed.

(** One turn over the frame of a packet writes that packet to the device and
    stops right after the frame. *)
Lemma demux_packet_frame (pre p post : list byte) (nread : Z) (d : decomp_ctx) :
  length_read_back char_signed (Z.of_nat (length p)) ->
  Z.of_nat (length (pre ++ frame p)) <= nread ->
  nread <= BUFSIZE ->
  let r := demux_packet char_signed rohc_decompress3 cfg nread (pre ++ frame p ++ post)
             (Z.of_nat (length pre)) d in
  outcome r = Ok (Z.of_nat (length (pre ++ frame p)), d) /\
  tap_writes (trace r) = [p] /\
  sent_datagrams (trace r) = [].
Proof.
  intros Hlen Hfit Hbuf. cbv zeta.
  rewrite length_app, Nat2Z.inj_add, frame_length in Hfit.
  set (len := Z.of_nat (length p)) in *.
  set (seplen := if len <? 64 then 1 else 2) in *.
  assert (Hsep : 1 <= seplen <= 2) by (subst seplen; destruct (len <? 64); lia).
  assert (Es : outcome (demux_separator char_signed (pre ++ frame p ++ post)
                          (Z.of_nat (length pre)))
               = Ok (Some (len, Z.of_nat (length pre) + seplen))).
  { unfold frame. rewrite <- app_assoc.
    apply demux_separator_mux_separator; [exact Hlen | fold seplen; lia]. }
  assert (Ec : outcome (copy_loop (Z.to_nat len) 0 (Z.of_nat (length pre) + seplen)
                          (pre ++ frame p ++ post) [])
               = Ok (p, Z.of_nat (length pre) + seplen + len)).
  { unfold frame. rewrite <- app_assoc, app_assoc.
    replace (Z.of_nat (length pre) + seplen)
      with (Z.of_nat (length (pre ++ mux_separator len)))
      by (rewrite length_app, Nat2Z.inj_add, mux_separator_length; reflexivity).
    unfold len at 1. rewrite Nat2Z.id.
    rewrite copy_loop_in; [reflexivity|].
    rewrite length_app, Nat2Z.inj_add, mux_separator_length. fold len seplen. lia. }
  assert (Hpos : Z.of_nat (length (pre ++ frame p)) = Z.of_nat (length pre) + seplen + len).
  { rewrite length_app, Nat2Z.inj_add, frame_length. fold len seplen. lia. }
  pose proof (demux_separator_trace char_signed (pre ++ frame p ++ post)
                (Z.of_nat (length pre))) as (Ts1 & _ & Ts2 & _).
  pose proof (copy_loop_trace (Z.to_nat len) 0 (Z.of_nat (length pre) + seplen)
                (pre ++ frame p ++ post) []) as (Tc1 & _ & Tc2).
  assert (Hfirst : firstn (Z.to_nat len) p = p).
  { unfold len. rewrite Nat2Z.id. apply firstn_all. }
  unfold demux_packet.
  rewrite outcome_bind, trace_bind, Es. cbv beta iota.
  rewrite outcome_bind, trace_bind, Ec. cbv beta iota.
  destruct (Z.gtb_spec (Z.of_nat (length pre) + seplen + len) nread) as [Hgt | _]; [lia|].
  destruct (Z.ltb_spec len 0) as [Hneg | _]; [lia|].
  rewrite no_compression. cbn [negb orb].
  rewrite outcome_bind, trace_bind. cbn [outcome trace ret fst snd app].
  rewrite outcome_bind, trace_bind, outcome_bind, trace_bind.
  cbn [cwrite emit outcome trace fst snd]. rewrite logf_outcome.
  destruct (logf_trace cfg (sent_demuxed len)) as (L1 & L2 & _).
  rewrite !tap_writes_app, !sent_datagrams_app, Ts1, Ts2, Tc1, Tc2, L1, L2, Hfirst, Hpos.
  repeat split.
Qed.

(** The loop over the frames of a sequence of packets writes the packets to
    the device, one by one and in their order, and ends normally. *)
Lemma demux_loop_frames (ps : list (list byte)) :
  forall (pre post : list byte) (fuel : nat) (d : decomp_ctx),
    Forall (fun p => length_read_back char_signed (Z.of_nat (length p))) ps ->
    Z.of_nat (length (pre ++ frames ps)) <= BUFSIZE ->
    Z.of_nat (length (frames ps)) <= Z.of_nat fuel ->
    let r := demux_loop char_signed rohc_decompress3 fuel cfg
               (Z.of_nat (length (pre ++ frames ps))) (pre ++ frames ps ++ post)
               (Z.of_nat (length pre)) d in
    outcome r = Ok d /\ tap_writes (trace r) = ps /\ sent_datagrams (trace r) = [].
Proof.
  induction ps as [|p ps IH]; intros pre post fuel d Hps Hbuf Hfuel; cbv zeta.
  - cbn [frames flat_map]. rewrite app_nil_r.
    destruct fuel; cbn [demux_loop]; rewrite Z.ltb_irrefl; repeat split.
  - cbn [frames flat_map] in *. fold (frames ps) in *.
    inversion Hps as [|? ? Hp Hps']; subst.
    pose proof (frame_length p) as Hfl.
    assert (Hsep : 1 <= Z.of_nat (length (frame p)))
      by (rewrite Hfl; destruct (Z.of_nat (length p) <? 64); lia).
    rewrite !length_app, !Nat2Z.inj_add in *.
    destruct fuel as [|fuel]; [lia|].
    cbn [demux_loop].
    destruct (Z.ltb_spec (Z.of_nat (length pre))
                (Z.of_nat (length pre) + (Z.of_nat (length (frame p)) + Z.of_nat (length (frames ps)))))
      as [_ | Hge]; [|lia].
    destruct (demux_packet_frame pre p (frames ps ++ post)
                (Z.of_nat (length pre) + (Z.of_nat (length (frame p)) + Z.of_nat (length (frames ps))))
                d Hp) as (Eo & Et & Es).
    { rewrite length_app, Nat2Z.inj_add. lia. }
    { lia. }
    rewrite <- app_assoc.
    rewrite outcome_bind, trace_bind, Eo. cbv beta iota.
    specialize (IH (pre ++ frame p) post fuel d Hps').
    rewrite !length_app, !Nat2Z.inj_add in IH.
    rewrite <- !app_assoc in IH.
    rewrite length_app, Nat2Z.inj_add.
    replace (Z.of_nat (length pre) + Z.of_nat (length (frame p)) + Z.of_nat (length (frames ps)))
      with (Z.of_nat (length pre) + (Z.of_nat (length (frame p)) + Z.of_nat (length (frames ps))))
      in IH by lia.
    destruct IH as (Io & It & Is); [lia | lia |].
    rewrite Io, tap_writes_app, sent_datagrams_app, Et, Es, It, Is. repeat split.
Qed.

End RoundTrip.

(** The handler of a datagram that carries the frames of a sequence of
    packets and comes from the multiplexing port writes the packets to the
    device in their order. *)
Lemma net_event_frames (char_signed : bool) (comp_ctx decomp_ctx : Type)
    (rohc_decompress3 : decomp_ctx -> list byte -> decomp_ctx * rohc_status_t * list byte)
    (cfg : config) (st : state comp_ctx decomp_ctx) (ps : list (list byte)) :
  compress_headers cfg = false ->
  Forall (fun p => length_read_back char_signed (Z.of_nat (length p))) ps ->
  Z.of_nat (length (frames ps)) <= BUFSIZE ->
  let r := net_event char_signed rohc_decompress3 cfg st (frames ps) (port cfg) in
  tap_writes (trace r) = ps /\
  sent_datagrams (trace r) = [] /\
  outcome r = Ok {| buffer_from_net := recvfrom (frames ps) (buffer_from_net st);
                    muxed_packet := muxed_packet st;
                    num_pkts_stored_from_tap := num_pkts_stored_from_tap st;
                    time_last_sent_in_microsec := time_last_sent_in_microsec st;
                    compressor := compressor st;
                    decompressor := decompressor st |}.
Proof.
  intros Hcomp Hps Hbuf. cbv zeta. unfold net_event.
  rewrite (firstn_all2 (n := Z.to_nat BUFSIZE) (frames ps)) by lia. rewrite Z.eqb_refl.
  cbn [decompressor buffer_from_net muxed_packet num_pkts_stored_from_tap
       time_last_sent_in_microsec compressor].
  destruct (demux_loop_frames char_signed decomp_ctx rohc_decompress3 cfg Hcomp ps []
              (skipn (length (frames ps)) (buffer_from_net st))
              (Z.to_nat (Z.of_nat (length (frames ps)))) (decompressor st) Hps)
    as (Eo & Et & Es).
  { exact Hbuf. }
  { lia. }
  cbn [app length] in Eo, Et, Es. change (Z.of_nat 0) with 0 in *.
  unfold recvfrom.
  destruct (logf_trace cfg (rec_muxed (Z.of_nat (length (frames ps))))) as (L1 & L2 & _).
  rewrite outcome_bind, trace_bind, logf_outcome. cbv beta iota.
  rewrite outcome_bind, trace_bind, Eo. cbv beta iota.
  rewrite !tap_writes_app, !sent_datagrams_app, L1, L2, Et, Es.
  cbn [trace outcome ret fst snd tap_writes sent_datagrams flat_map app].
  rewrite app_nil_r. repeat split.
Qed.

(** ** The accumulator *)

Lemma store_loop_outcome (bytes muxed : list byte) :
  outcome (store_loop bytes muxed) = Ok (muxed ++ bytes).
Proof.
  revert muxed. induction bytes as [|b bytes IH]; intros muxed.
  - cbn. now rewrite app_nil_r.
  - cbn [store_loop]. rewrite outcome_bind.
    replace (outcome (if MTU <=? Z.of_nat (length muxed)
                      then emit (Overrun Muxed_packet (Z.of_nat (length muxed)))
                      else ret tt))
      with (@Ok unit tt) by (now destruct (MTU <=? Z.of_nat (length muxed))).
    rewrite IH, <- app_assoc. reflexivity.
Qed.

(** Storing sends nothing, and stays inside the array when the bytes fit in
    its [MTU] cells. *)
Lemma store_loop_trace (bytes muxed : list byte) :
  let t := trace (store_loop bytes muxed) in
  sent_datagrams t = [] /\ tap_writes t = [] /\ log_records t = [] /\
  (Z.of_nat (length muxed) + Z.of_nat (length bytes) <= MTU -> overruns t = []).
Proof.
  cbv zeta. revert muxed. induction bytes as [|b bytes IH]; intros muxed.
  - cbn. repeat split.
  - cbn [store_loop]. rewrite trace_bind.
    specialize (IH (muxed ++ [b])). rewrite length_app in IH. cbn [length] in IH.
    destruct IH as (I1 & I2 & I3 & I4).
    destruct (Z.leb_spec MTU (Z.of_nat (length muxed))) as [Hover | Hin];
      cbn [trace outcome emit ret fst snd];
      rewrite ?sent_datagrams_app, ?tap_writes_app, ?log_records_app, ?overruns_app,
        I1, I2, I3; cbn [length]; (repeat split; try reflexivity).
    + intros; lia.
    + intros H. cbn [app]. apply I4. lia.
Qed.

(** Bytes that do not fit are stored past the end of [muxed_packet]; the
    first such store is at index [MTU], or at the fill level if that is
    higher. *)
Lemma store_loop_overrun (bytes muxed : list byte) :
  bytes <> [] ->
  MTU < Z.of_nat (length muxed) + Z.of_nat (length bytes) ->
  In (Muxed_packet, Z.max MTU (Z.of_nat (length muxed)))
     (overruns (trace (store_loop bytes muxed))).
Proof.
  revert muxed. induction bytes as [|b bytes IH]; intros muxed Hne H; [congruence|].
  cbn [store_loop]. rewrite trace_bind.
  destruct (Z.leb_spec MTU (Z.of_nat (length muxed))) as [Hover | Hin];
    cbn [trace outcome emit ret fst snd]; rewrite overruns_app.
  - left. f_equal. lia.
  - cbn [overruns flat_map app]. cbn [length] in H.
    destruct bytes as [|b' bytes]; [cbn [length] in H; lia|].
    replace (Z.max MTU (Z.of_nat (length muxed)))
      with (Z.max MTU (Z.of_nat (length (muxed ++ [b]))))
      by (rewrite length_app; cbn [length]; lia).
    apply IH; [discriminate|]. rewrite length_app. cbn [length] in *. lia.
Qed.

Section Accumulator.

Variables comp_ctx decomp_ctx : Type.
Variable rohc_compress4 : comp_ctx -> list byte -> comp_ctx * rohc_status_t * list byte.
Variable cfg : config.

Lemma compress_block_run (st : state comp_ctx decomp_ctx) (packet : list byte) :
  let r := compress_block rohc_compress4 cfg st packet in
  outcome r = Ok (let '(comp, _, rohc_packet) := rohc_compress4 (compressor st) packet in
                  (rohc_packet, comp)) /\
  sent_datagrams (trace r) = [] /\ tap_writes (trace r) = [] /\ overruns (trace r) = [].
Proof.
  cbv zeta. unfold compress_block.
  destruct (rohc_compress4 (compressor st) packet) as [[comp status] rohc_packet].
  rewrite outcome_bind, trace_bind.
  destruct (logf_trace cfg (error_compr_failed (Z.of_nat (length packet))))
    as (L1 & L2 & L3 & _).
  destruct status; rewrite ?logf_outcome; cbn [outcome trace ret fst snd app];
    rewrite ?app_nil_r, ?L1, ?L2, ?L3; repeat split.
Qed.

(** The flush of lines 1062-1075 sends the buffer and empties it; the time of
    the last sending is the one it had. *)
Lemma flush_mtu_run (st : state comp_ctx decomp_ctx) :
  flush_mtu cfg st =
    (SendTo (muxed_packet st)
       :: (if log_file cfg
           then [Log (sent_muxed (size_muxed_packet st) (num_pkts_stored_from_tap st) ReasonMTU)]
           else []),
     Ok (set_accumulator st [] 0 (time_last_sent_in_microsec st) (compressor st))).
Proof. unfold flush_mtu, logf. destruct (log_file cfg); reflexivity. Qed.

(** The flush of lines 1135-1165 sends the buffer, empties it and sets the
    time of the last sending to the clock read at line 1129. *)
Lemma flush_trigger_run (st : state comp_ctx decomp_ctx) (time_in_microsec : Z) :
  let r := flush_trigger cfg st time_in_microsec in
  sent_datagrams (trace r) = (if fires cfg st time_in_microsec then [muxed_packet st] else []) /\
  tap_writes (trace r) = [] /\
  overruns (trace r) = [] /\
  outcome r = Ok (if fires cfg st time_in_microsec
                  then set_accumulator st [] 0 time_in_microsec (compressor st)
                  else st).
Proof.
  cbv zeta. unfold flush_trigger, fires.
  destruct ((num_pkts_stored_from_tap st =? limit_numpackets_tap cfg)
            || (size_muxed_packet st >? size_threshold cfg)
            || (uint64 (time_in_microsec - time_last_sent_in_microsec st) >? timeout cfg));
    [|repeat split].
  unfold logf. destruct (log_file cfg); repeat split.
Qed.

(** The expiry of the period sends what is stored, if anything, empties the
    buffer and sets the time of the last sending to the clock. *)
Lemma period_event_run (st : state comp_ctx decomp_ctx) (time_in_microsec : Z) :
  let r := period_event cfg st time_in_microsec in
  sent_datagrams (trace r) =
    (if num_pkts_stored_from_tap st >? 0 then [muxed_packet st] else []) /\
  tap_writes (trace r) = [] /\
  overruns (trace r) = [] /\
  exists st', outcome r = Ok st' /\
    time_last_sent_in_microsec st' = time_in_microsec /\
    (num_pkts_stored_from_tap st > 0 ->
     num_pkts_stored_from_tap st' = 0 /\ size_muxed_packet st' = 0) /\
    (num_pkts_stored_from_tap st <= 0 ->
     num_pkts_stored_from_tap st' = num_pkts_stored_from_tap st /\
     muxed_packet st' = muxed_packet st).
Proof.
  cbv zeta. unfold period_event.
  destruct (Z.gtb_spec (num_pkts_stored_from_tap st) 0).
  - unfold logf. destruct (log_file cfg); repeat split;
      (eexists; split; [reflexivity|]; repeat split; lia).
  - repeat split. eexists; split; [reflexivity|]. repeat split; lia.
Qed.

End Accumulator.

(** ** What the handler of a packet from the tun/tap device does *)

Section TapToNet.

Variables comp_ctx decomp_ctx : Type.
Variable rohc_compress4 : comp_ctx -> list byte -> comp_ctx * rohc_status_t * list byte.
Variable cfg : config.

(** The payload is framed behind what is stored, or behind nothing when the
    MTU test flushes first; the buffer is sent if a trigger fires.  In every
    case the handler runs to its end. *)
Lemma tap_event_run (st : state comp_ctx decomp_ctx) (packet : list byte)
    (time_in_microsec : Z) :
  let payload := fst (offered rohc_compress4 cfg st packet) in
  let comp := snd (offered rohc_compress4 cfg st packet) in
  let mtu_reached :=
    predicted_size_muxed_packet (size_muxed_packet st) (Z.of_nat (length payload)) >? MTU in
  let kept := if mtu_reached then [] else muxed_packet st in
  let st1 := set_accumulator st (kept ++ frame payload)
               ((if mtu_reached then 0 else num_pkts_stored_from_tap st) + 1)
               (time_last_sent_in_microsec st) comp in
  let r := tap_event rohc_compress4 cfg st packet time_in_microsec in
  sent_datagrams (trace r) =
    (if mtu_reached then [muxed_packet st] else [])
    ++ (if fires cfg st1 time_in_microsec then [kept ++ frame payload] else []) /\
  tap_writes (trace r) = [] /\
  (Z.of_nat (length (kept ++ frame payload)) <= MTU -> overruns (trace r) = []) /\
  outcome r = Ok (if fires cfg st1 time_in_microsec
                  then set_accumulator st [] 0 time_in_microsec comp
                  else st1).
Proof.
  cbv zeta. unfold tap_event.
  set (cb := if compress_headers cfg then compress_block rohc_compress4 cfg st packet
             else ret (packet, compressor st)).
  assert (Hcb : outcome cb = Ok (fst (offered rohc_compress4 cfg st packet),
                                 snd (offered rohc_compress4 cfg st packet)) /\
                sent_datagrams (trace cb) = [] /\ tap_writes (trace cb) = [] /\
                overruns (trace cb) = []).
  { subst cb. unfold offered. destruct (compress_headers cfg); [|repeat split].
    destruct (compress_block_run comp_ctx decomp_ctx rohc_compress4 cfg st packet)
      as (E & T1 & T2 & T3).
    rewrite E. destruct (rohc_compress4 (compressor st) packet) as [[c status] out].
    repeat split; assumption. }
  destruct Hcb as (Ecb & Scb & Wcb & Ocb).
  set (payload := fst (offered rohc_compress4 cfg st packet)) in *.
  set (comp := snd (offered rohc_compress4 cfg st packet)) in *.
  destruct (logf_trace cfg (rec_native (Z.of_nat (length packet)))) as (L1 & L2 & L3 & _).
  rewrite ?outcome_bind, ?trace_bind, logf_outcome. cbv beta iota.
  rewrite ?outcome_bind, ?trace_bind, Ecb. cbv beta iota.
  change (size_muxed_packet
            (set_accumulator st (muxed_packet st) (num_pkts_stored_from_tap st)
               (time_last_sent_in_microsec st) comp))
    with (size_muxed_packet st).
  set (mtu_reached :=
         predicted_size_muxed_packet (size_muxed_packet st) (Z.of_nat (length payload)) >? MTU).
  set (fl := if mtu_reached
             then flush_mtu cfg (set_accumulator st (muxed_packet st)
                                   (num_pkts_stored_from_tap st)
                                   (time_last_sent_in_microsec st) comp)
             else ret (set_accumulator st (muxed_packet st) (num_pkts_stored_from_tap st)
                         (time_last_sent_in_microsec st) comp)).
  assert (Hfl : outcome fl =
                  Ok (set_accumulator st (if mtu_reached then [] else muxed_packet st)
                        (if mtu_reached then 0 else num_pkts_stored_from_tap st)
                        (time_last_sent_in_microsec st) comp) /\
                sent_datagrams (trace fl) = (if mtu_reached then [muxed_packet st] else []) /\
                tap_writes (trace fl) = [] /\ overruns (trace fl) = []).
  { subst fl. destruct mtu_reached; [|repeat split].
    rewrite flush_mtu_run. destruct (log_file cfg); repeat split. }
  destruct Hfl as (Efl & Sfl & Wfl & Ofl).
  rewrite ?outcome_bind, ?trace_bind, Efl. cbv beta iota.
  cbn [muxed_packet num_pkts_stored_from_tap time_last_sent_in_microsec set_accumulator].
  set (kept := if mtu_reached then [] else muxed_packet st).
  set (sep := mux_separator (Z.of_nat (length payload))).
  destruct (store_loop_trace sep kept) as (S1 & W1 & _ & O1).
  destruct (store_loop_trace payload (kept ++ sep)) as (S2 & W2 & _ & O2).
  rewrite ?outcome_bind, ?trace_bind, !store_loop_outcome. cbv beta iota.
  rewrite ?outcome_bind, ?trace_bind, !store_loop_outcome. cbv beta iota.
  rewrite <- (app_assoc kept sep payload).
  set (st1 := set_accumulator st (kept ++ frame payload)
                ((if mtu_reached then 0 else num_pkts_stored_from_tap st) + 1)
                (time_last_sent_in_microsec st) comp).
  repeat match goal with
         | |- context [flush_trigger cfg ?s time_in_microsec] =>
             progress change s with st1
         end.
  destruct (flush_trigger_run comp_ctx decomp_ctx cfg st1 time_in_microsec)
    as (S3 & W3 & O3 & E3).
  rewrite E3.
  rewrite !sent_datagrams_app, !tap_writes_app, !overruns_app.
  rewrite L1, L2, L3, Scb, Wcb, Ocb, Sfl, Wfl, Ofl, S1, W1, S2, W2, S3, W3, O3.
  cbn [app]. rewrite ?app_nil_r.
  repeat split.
  intros Hfit. unfold frame in Hfit. fold sep in Hfit.
    rewrite !length_app, !Nat2Z.inj_add in Hfit.
    rewrite O1, O2; [reflexivity | rewrite length_app, Nat2Z.inj_add; lia | lia].
Qed.

End TapToNet.

(** ** Bundles are made of whole frames, in the order of arrival *)

Lemma frames_app (ps qs : list (list byte)) : frames (ps ++ qs) = frames ps ++ frames qs.
Proof. apply flat_map_app. Qed.

Lemma frames_one (p : list byte) : frames [p] = frame p.
Proof. cbn. apply app_nil_r. Qed.

Lemma predicted_size_frame (size : Z) (payload : list byte) :
  predicted_size_muxed_packet size (Z.of_nat (length payload))
  = size + Z.of_nat (length (frame payload)).
Proof.
  unfold predicted_size_muxed_packet. rewrite frame_length.
  destruct (Z.of_nat (length payload) <? 64); lia.
Qed.

Section Sender.

Variables comp_ctx decomp_ctx : Type.
Variable rohc_compress4 : comp_ctx -> list byte -> comp_ctx * rohc_status_t * list byte.
Variable cfg : config.

(** A payload that fits in a bundle of its own keeps every bundle, and the
    buffer, within [MTU] bytes, and no store leaves [muxed_packet]. *)
Lemma tap_event_within_MTU (st : state comp_ctx decomp_ctx) (packet : list byte)
    (time_in_microsec : Z) :
  size_muxed_packet st <= MTU ->
  Z.of_nat (length (frame (fst (offered rohc_compress4 cfg st packet)))) <= MTU ->
  let r := tap_event rohc_compress4 cfg st packet time_in_microsec in
  Forall (fun d => Z.of_nat (length d) <= MTU) (sent_datagrams (trace r)) /\
  overruns (trace r) = [] /\
  exists st', outcome r = Ok st' /\ size_muxed_packet st' <= MTU.
Proof.
  intros Hst Hfit. cbv zeta.
  destruct (tap_event_run comp_ctx decomp_ctx rohc_compress4 cfg st packet time_in_microsec)
    as (Hs & _ & Ho & He).
  set (payload := fst (offered rohc_compress4 cfg st packet)) in *.
  rewrite predicted_size_frame in *.
  set (mtu_reached := size_muxed_packet st + Z.of_nat (length (frame payload)) >? MTU) in *.
  set (kept := if mtu_reached then [] else muxed_packet st) in *.
  assert (Hlen : Z.of_nat (length (kept ++ frame payload)) <= MTU).
  { subst kept mtu_reached. unfold size_muxed_packet in *.
    destruct (Z.gtb_spec (Z.of_nat (length (muxed_packet st))
                          + Z.of_nat (length (frame payload))) MTU);
      rewrite length_app, Nat2Z.inj_add; cbn [length]; lia. }
  rewrite Hs, He. split; [|split; [auto|]].
  - apply Forall_app. split.
    + destruct mtu_reached; constructor; [exact Hst | constructor].
    + match goal with |- context [if ?b then _ else _] => destruct b end;
        constructor; [exact Hlen | constructor].
  - match goal with |- context [if ?b then _ else _] => destruct b end;
      eexists; (split; [reflexivity|]); unfold size_muxed_packet, MTU; cbn; [lia|].
    fold MTU. exact Hlen.
Qed.

(** A payload that does not fit alone, offered to the empty accumulator, is
    not dropped: the empty buffer is sent first, and the payload is framed
    and then sent or kept. *)
Lemma tap_event_oversize (st : state comp_ctx decomp_ctx) (packet : list byte)
    (time_in_microsec : Z) :
  muxed_packet st = [] ->
  let payload := fst (offered rohc_compress4 cfg st packet) in
  predicted_size_muxed_packet 0 (Z.of_nat (length payload)) > MTU ->
  let r := tap_event rohc_compress4 cfg st packet time_in_microsec in
  exists st', outcome r = Ok st' /\
    (sent_datagrams (trace r) = [[]; frame payload] /\ muxed_packet st' = []
     \/ sent_datagrams (trace r) = [[]] /\ muxed_packet st' = frame payload).
Proof.
  intros Hempty payload Hover. cbv zeta.
  destruct (tap_event_run comp_ctx decomp_ctx rohc_compress4 cfg st packet time_in_microsec)
    as (Hs & _ & _ & He).
  fold payload in Hs, He.
  unfold size_muxed_packet in Hs, He. rewrite Hempty in Hs, He. cbn [length] in Hs, He.
  change (Z.of_nat 0) with 0 in *.
  destruct (Z.gtb_spec (predicted_size_muxed_packet 0 (Z.of_nat (length payload))) MTU)
    as [_ | Hle]; [|lia].
  cbn [app] in Hs, He.
  match type of He with context [if ?b then _ else _] => destruct b end;
    eexists; (split; [exact He|]); [left | right]; split; auto.
Qed.

End Sender.

Section Stream.

Variable char_signed : bool.
Variables comp_ctx decomp_ctx : Type.
Variable rohc_compress4 : comp_ctx -> list byte -> comp_ctx * rohc_status_t * list byte.
Variable rohc_decompress3 : decomp_ctx -> list byte -> decomp_ctx * rohc_status_t * list byte.
Variable cfg : config.
Hypothesis no_compression : compress_headers cfg = false.

(** With [ps] the packets stored: the handler of a packet [p] sends bundles
    that are the frames of [qss], keeps the frames of [ps'], and [qss]
    followed by [ps'] is [ps] followed by [p]. *)
Lemma tap_event_frames (st : state comp_ctx decomp_ctx) (ps : list (list byte))
    (p : list byte) (time_in_microsec : Z) :
  muxed_packet st = frames ps ->
  let r := tap_event rohc_compress4 cfg st p time_in_microsec in
  exists qss ps' st',
    sent_datagrams (trace r) = map frames qss /\
    outcome r = Ok st' /\
    muxed_packet st' = frames ps' /\
    concat qss ++ ps' = ps ++ [p].
Proof.
  intros Hst. cbv zeta.
  destruct (tap_event_run comp_ctx decomp_ctx rohc_compress4 cfg st p time_in_microsec)
    as (Hs & _ & _ & He).
  unfold offered in Hs, He. rewrite no_compression in Hs, He. cbn [fst snd] in Hs, He.
  rewrite Hs, He, Hst.
  destruct (predicted_size_muxed_packet (size_muxed_packet st) (Z.of_nat (length p)) >? MTU);
    match goal with |- context [if ?b then _ else _] => destruct b end.
  - exists [ps; [p]], [], (set_accumulator st [] 0 time_in_microsec (compressor st)).
    cbn [map app concat]. rewrite frames_one, app_nil_r. repeat split.
  - exists [ps], [p]. eexists. cbn [map app concat set_accumulator muxed_packet].
    rewrite frames_one, app_nil_r. repeat split.
  - exists [ps ++ [p]], [], (set_accumulator st [] 0 time_in_microsec (compressor st)).
    cbn [map app concat]. rewrite frames_app, frames_one, !app_nil_r. repeat split.
  - exists [], (ps ++ [p]). eexists. cbn [map app concat set_accumulator muxed_packet].
    rewrite frames_app, frames_one. repeat split.
Qed.

Lemma period_event_frames (st : state comp_ctx decomp_ctx) (ps : list (list byte))
    (time_in_microsec : Z) :
  muxed_packet st = frames ps ->
  let r := period_event cfg st time_in_microsec in
  exists qss ps' st',
    sent_datagrams (trace r) = map frames qss /\
    outcome r = Ok st' /\
    muxed_packet st' = frames ps' /\
    concat qss ++ ps' = ps.
Proof.
  intros Hst. cbv zeta. unfold period_event.
  destruct (num_pkts_stored_from_tap st >? 0).
  - exists [ps], [], (set_accumulator st [] 0 time_in_microsec (compressor st)).
    rewrite Hst. unfold logf.
    destruct (log_file cfg); cbn [concat app]; rewrite !app_nil_r; repeat split.
  - exists [], ps. eexists. cbn. repeat split. exact Hst.
Qed.

(** Over any sequence of packets and period expiries, the bundles sent and
    the frames left in the buffer are, put end to end, the frames of the
    packets in the order they were read: none is lost, repeated or moved. *)
Lemma main_loop_frames (inputs : list input) :
  Forall sender_input inputs ->
  forall (st : state comp_ctx decomp_ctx) (ps : list (list byte)),
    muxed_packet st = frames ps ->
    let r := main_loop char_signed rohc_compress4 rohc_decompress3 cfg st inputs in
    exists qss ps' st',
      sent_datagrams (trace r) = map frames qss /\
      outcome r = Ok st' /\
      muxed_packet st' = frames ps' /\
      concat qss ++ ps' = ps ++ tap_packets inputs.
Proof.
  induction 1 as [|i inputs Hi _ IH]; intros st ps Hst; cbv zeta.
  - exists [], ps, st. cbn. rewrite app_nil_r. repeat split. exact Hst.
  - cbn [main_loop tap_packets flat_map]. fold (tap_packets inputs).
    assert (Hturn : exists qss ps' st',
               sent_datagrams (trace (main_loop_turn char_signed rohc_compress4
                                        rohc_decompress3 cfg st i)) = map frames qss /\
               outcome (main_loop_turn char_signed rohc_compress4 rohc_decompress3 cfg st i)
                 = Ok st' /\
               muxed_packet st' = frames ps' /\
               concat qss ++ ps' =
                 ps ++ match i with TapReadable packet _ => [packet] | _ => [] end).
    { destruct i as [datagram remote_port | packet t | t]; [contradiction | |].
      - apply tap_event_frames, Hst.
      - cbn [main_loop_turn]. rewrite app_nil_r. apply period_event_frames, Hst. }
    destruct Hturn as (qss1 & ps1 & st1 & Hs1 & Ho1 & Hm1 & Hc1).
    destruct (IH st1 ps1 Hm1) as (qss2 & ps2 & st2 & Hs2 & Ho2 & Hm2 & Hc2).
    exists (qss1 ++ qss2), ps2, st2.
    rewrite trace_bind, outcome_bind, Ho1, sent_datagrams_app, Hs1, Hs2, map_app, concat_app.
    repeat split; [exact Ho2 | exact Hm2 |].
    rewrite <- app_assoc, Hc2, app_assoc, Hc1, <- app_assoc. reflexivity.
Qed.

(** The round trip, where the separator is read back: every bundle sent
    over a run of the sender is the frames of some packets [qs] of the run,
    and the demultiplexer of the peer, given that bundle, writes exactly [qs]
    to its device, in the same order.  The lengths read back are all the
    lengths up to 16383 where plain [char] is unsigned, and those with a low
    byte below 128 where it is signed. *)
Lemma bundle_roundtrip (inputs : list input) (st : state comp_ctx decomp_ctx)
    (ps : list (list byte)) (bundle : list byte)
    (peer_cfg : config) (peer : state comp_ctx decomp_ctx) :
  Forall sender_input inputs ->
  muxed_packet st = frames ps ->
  Forall (fun p => length_read_back char_signed (Z.of_nat (length p)))
         (ps ++ tap_packets inputs) ->
  In bundle (sent_datagrams
               (trace (main_loop char_signed rohc_compress4 rohc_decompress3 cfg st inputs))) ->
  Z.of_nat (length bundle) <= BUFSIZE ->
  compress_headers peer_cfg = false ->
  exists qs,
    bundle = frames qs /\
    incl qs (ps ++ tap_packets inputs) /\
    let r := net_event char_signed rohc_decompress3 peer_cfg peer bundle (port peer_cfg) in
    tap_writes (trace r) = qs /\
    exists peer', outcome r = Ok peer'.
Proof.
  intros Hin Hst Hlens Hb Hsize Hpeer.
  destruct (main_loop_frames inputs Hin st ps Hst) as (qss & ps' & st' & Hs & _ & _ & Hc).
  rewrite Hs in Hb. apply in_map_iff in Hb. destruct Hb as (qs & <- & Hqs).
  assert (Hincl : incl qs (ps ++ tap_packets inputs)).
  { intros q Hq. rewrite <- Hc. apply in_or_app. left.
    apply in_concat. exists qs. split; assumption. }
  exists qs. split; [reflexivity|]. split; [exact Hincl|].
  destruct (net_event_frames char_signed comp_ctx decomp_ctx rohc_decompress3 peer_cfg peer qs
              Hpeer) as (Hw & _ & Ho).
  - rewrite Forall_forall in *. intros q Hq. apply Hlens, Hincl, Hq.
  - exact Hsize.
  - split; [exact Hw|]. eexists. exact Ho.
Qed.

End Stream.

(** ** Malformed bundles *)

Section Malformed.

Variable char_signed : bool.
Variable decomp_ctx : Type.
Variable rohc_decompress3 : decomp_ctx -> list byte -> decomp_ctx * rohc_status_t * list byte.
Variable cfg : config.

(** A copy that stays inside [buffer_from_net] runs to its end. *)
Lemma copy_loop_inside (n : nat) (l position : Z) (buf dem : list byte) :
  Z.of_nat (length buf) = BUFSIZE ->
  0 <= position ->
  position + Z.of_nat n <= BUFSIZE ->
  exists dem', outcome (copy_loop n l position buf dem) = Ok (dem', position + Z.of_nat n).
Proof.
  intros Hbuf. revert l position dem. induction n as [|n IH]; intros l position dem H0 H1.
  - exists dem. cbn. do 3 f_equal. lia.
  - destruct (nth_error buf (Z.to_nat position)) as [c|] eqn:Ec.
    2:{ apply nth_error_None in Ec. exfalso. lia. }
    cbn [copy_loop]. rewrite (net_load_in _ _ c) by (auto; lia).
    rewrite outcome_bind. cbn [outcome snd]. rewrite outcome_bind.
    replace (outcome (if MTU <=? l then emit (Overrun Demuxed_packet l) else ret tt))
      with (@Ok unit tt) by (now destruct (MTU <=? l)).
    destruct (IH (l + 1) (position + 1) (dem ++ [c])) as [dem' E]; [lia | lia |].
    exists dem'. rewrite E. do 2 f_equal. lia.
Qed.

(** A separator whose first bit is set: the record is written, nothing of
    the rest of the datagram reaches the device, and the loop ends. *)
Lemma demux_loop_bad_separator (nread : Z) (buf : list byte) (position : Z) (c : byte)
    (fuel : nat) (d : decomp_ctx) :
  0 <= position < nread ->
  nread <= BUFSIZE ->
  nth_error buf (Z.to_nat position) = Some c ->
  128 <= byte.unsigned c ->
  demux_loop char_signed rohc_decompress3 (S fuel) cfg nread buf position d =
    (NetRead position :: (if log_file cfg then [Log (error_bad_separator nread)] else []),
     Ok d).
Proof.
  intros Hpos Hbuf Hc Hbit. cbn [demux_loop].
  destruct (Z.ltb_spec position nread); [|lia].
  assert (Hend : forall d', demux_loop char_signed rohc_decompress3 fuel cfg nread buf nread d'
                            = ret d').
  { intros d'. destruct fuel; cbn [demux_loop]; now rewrite Z.ltb_irrefl. }
  unfold demux_packet, demux_separator.
  rewrite (net_load_in _ _ c) by (auto; lia).
  cbv beta iota delta [bind].
  rewrite FromByte_bit7. destruct (Z.leb_spec 128 (byte.unsigned c)); [|lia].
  unfold logf. destruct (log_file cfg); cbn [emit ret app]; rewrite Hend; reflexivity.
Qed.

(** A declared length that runs past the datagram while the copy stays inside
    [buffer_from_net]: the record is written, the packet is not written to
    the device, and the loop ends. *)
Lemma demux_loop_truncated_payload (nread : Z) (buf : list byte) (position len p1 : Z)
    (fuel : nat) (d : decomp_ctx) :
  Z.of_nat (length buf) = BUFSIZE ->
  0 <= position < nread ->
  outcome (demux_separator char_signed buf position) = Ok (Some (len, p1)) ->
  nread < p1 + Z.max 0 len ->
  p1 + Z.max 0 len <= BUFSIZE ->
  let r := demux_loop char_signed rohc_decompress3 (S fuel) cfg nread buf position d in
  tap_writes (trace r) = [] /\
  log_records (trace r) = (if log_file cfg then [error_demux_bad_length nread] else []) /\
  outcome r = Ok d.
Proof.
  intros Hbuf Hpos Es Hover Hin. cbv zeta.
  pose proof (demux_separator_position _ _ _ _ _ Es) as Hp1.
  destruct (copy_loop_inside (Z.to_nat len) 0 p1 buf [] Hbuf) as [dem Ec]; try lia.
  replace (p1 + Z.of_nat (Z.to_nat len)) with (p1 + Z.max 0 len) in Ec by lia.
  pose proof (demux_separator_trace char_signed buf position) as (Ts1 & Ts2 & _).
  pose proof (copy_loop_trace (Z.to_nat len) 0 p1 buf []) as (Tc1 & Tc2 & _).
  destruct (logf_trace cfg (error_demux_bad_length nread)) as (L1 & _ & _ & _ & L2 & _).
  cbn [demux_loop]. destruct (Z.ltb_spec position nread); [|lia].
  unfold demux_packet.
  repeat (progress (rewrite ?outcome_bind, ?trace_bind, ?Es, ?Ec; cbv beta iota)).
  destruct (Z.gtb_spec (p1 + Z.max 0 len) nread); [|lia].
  repeat (progress (rewrite ?outcome_bind, ?trace_bind, ?logf_outcome; cbv beta iota)).
  cbn [outcome trace ret fst snd].
  assert (Hend : demux_loop char_signed rohc_decompress3 fuel cfg nread buf
                   (p1 + Z.max 0 len) d = ret d).
  { destruct fuel; cbn [demux_loop];
      (destruct (Z.ltb_spec (p1 + Z.max 0 len) nread); [lia | reflexivity]). }
  rewrite Hend. cbn [outcome trace ret fst snd].
  rewrite !tap_writes_app, !log_records_app, Ts1, Ts2, Tc1, Tc2, L1, L2.
  cbn [app tap_writes log_records flat_map]. rewrite ?app_nil_r. repeat split.
Qed.

(** With compression enabled, a packet for which the decompressor succeeds
    and yields nothing is written to the device as it was received. *)
Lemma demux_packet_feedback_only (nread : Z) (buf : list byte) (position len p1 p2 : Z)
    (dem : list byte) (d d' : decomp_ctx) :
  compress_headers cfg = true ->
  outcome (demux_separator char_signed buf position) = Ok (Some (len, p1)) ->
  outcome (copy_loop (Z.to_nat len) 0 p1 buf []) = Ok (dem, p2) ->
  p2 <= nread ->
  0 <= len ->
  rohc_decompress3 d (firstn (Z.to_nat len) dem) = (d', ROHC_STATUS_OK, []) ->
  let r := demux_packet char_signed rohc_decompress3 cfg nread buf position d in
  tap_writes (trace r) = [firstn (Z.to_nat len) dem] /\
  outcome r = Ok (p2, d').
Proof.
  intros Hcomp Es Ec Hfit Hlen Hrohc. cbv zeta.
  pose proof (demux_separator_trace char_signed buf position) as (Ts1 & _).
  pose proof (copy_loop_trace (Z.to_nat len) 0 p1 buf []) as (Tc1 & _).
  destruct (logf_trace cfg (rec_ROHC_feedback nread)) as (L1 & _).
  destruct (logf_trace cfg (sent_demuxed len)) as (L2 & _).
  unfold demux_packet.
  repeat (progress (rewrite ?outcome_bind, ?trace_bind, ?Es, ?Ec; cbv beta iota)).
  destruct (Z.gtb_spec p2 nread); [lia|].
  destruct (Z.ltb_spec len 0); [lia|].
  rewrite Hcomp. unfold decompress_block. rewrite Hrohc.
  cbn [status_is_OK negb orb andb].
  repeat (progress (rewrite ?outcome_bind, ?trace_bind, ?logf_outcome;
                    cbn [outcome trace ret cwrite emit fst snd status_is_OK negb orb andb])).
  rewrite !tap_writes_app, Ts1, Tc1, L1, L2. cbn. repeat split.
Qed.

End Malformed.

(** ** Stores that stay inside [demuxed_packet] *)

Lemma bind_no_overrun {A B : Type} (m : run A) (k : A -> run B) :
  overruns (trace m) = [] ->
  (forall a, outcome m = Ok a -> overruns (trace (k a)) = []) ->
  overruns (trace (bind m k)) = [].
Proof.
  intros Hm Hk. rewrite trace_bind, overruns_app, Hm.
  destruct (outcome m) as [a | f]; [now apply Hk | reflexivity].
Qed.

Section InsideDemuxedPacket.

Variable char_signed : bool.
Variable decomp_ctx : Type.
Variable rohc_decompress3 : decomp_ctx -> list byte -> decomp_ctx * rohc_status_t * list byte.
Variable cfg : config.
Hypothesis no_compression : compress_headers cfg = false.

(** A turn whose separator declares at most [MTU] bytes stores nothing
    outside [demuxed_packet]. *)
Lemma demux_packet_no_overrun (nread : Z) (buf : list byte) (position : Z) (d : decomp_ctx) :
  (forall len p1,
     outcome (demux_separator char_signed buf position) = Ok (Some (len, p1)) -> len <= MTU) ->
  overruns (trace (demux_packet char_signed rohc_decompress3 cfg nread buf position d)) = [].
Proof.
  intros Hlen. unfold demux_packet.
  apply bind_no_overrun; [apply demux_separator_trace|].
  intros [[len p1]|] Es; [|apply bind_no_overrun; [apply logf_trace | reflexivity]].
  specialize (Hlen len p1 Es).
  apply bind_no_overrun; [apply copy_loop_no_overrun; unfold MTU in *; lia|].
  intros [dem p2] _. cbv beta iota.
  destruct (p2 >? nread); [apply bind_no_overrun; [apply logf_trace | reflexivity]|].
  destruct (len <? 0); [reflexivity|].
  rewrite no_compression. cbn [negb orb].
  apply bind_no_overrun; [reflexivity|].
  intros [[[status dem'] len'] d'] _. cbv beta iota.
  apply bind_no_overrun; [|reflexivity].
  apply bind_no_overrun; [reflexivity | intros; apply logf_trace].
Qed.

(** The loop over a buffer that starts with the frames of [ps]: the packets
    of [ps] are written, no store leaves [demuxed_packet], and the loop goes
    on after them. *)
Lemma demux_loop_frames_then (ps : list (list byte)) :
  forall (pre post : list byte) (fuel : nat) (d : decomp_ctx) (nread : Z),
    Forall (fun p => length_read_back char_signed (Z.of_nat (length p))) ps ->
    Forall (fun p => Z.of_nat (length p) <= MTU) ps ->
    Z.of_nat (length (pre ++ frames ps)) <= nread ->
    nread <= BUFSIZE ->
    nread - Z.of_nat (length pre) <= Z.of_nat fuel ->
    let buf := pre ++ frames ps ++ post in
    let r := demux_loop char_signed rohc_decompress3 fuel cfg nread buf
               (Z.of_nat (length pre)) d in
    let r' := demux_loop char_signed rohc_decompress3 fuel cfg nread buf
                (Z.of_nat (length (pre ++ frames ps))) d in
    tap_writes (trace r) = ps ++ tap_writes (trace r') /\
    sent_datagrams (trace r) = sent_datagrams (trace r') /\
    overruns (trace r) = overruns (trace r') /\
    (forall rec, In rec (log_records (trace r')) -> In rec (log_records (trace r))) /\
    outcome r = outcome r'.
Proof.
  induction ps as [|p ps IH]; intros pre post fuel d nread Hps Hsmall Hfit Hbuf Hfuel; cbv zeta.
  - cbn [frames flat_map app]. rewrite app_nil_r. repeat split. auto.
  - cbn [frames flat_map] in *. fold (frames ps) in *.
    inversion Hps as [|? ? Hp Hps']; subst.
    inversion Hsmall as [|? ? Hp' Hsmall']; subst.
    pose proof (frame_length p) as Hfl.
    assert (Hsep : 1 <= Z.of_nat (length (frame p)))
      by (rewrite Hfl; destruct (Z.of_nat (length p) <? 64); lia).
    rewrite !length_app, !Nat2Z.inj_add in Hfit.
    destruct fuel as [|fuel]; [lia|].
    destruct (demux_packet_frame char_signed decomp_ctx rohc_decompress3 cfg no_compression
                pre p (frames ps ++ post) nread d Hp) as (Eo & Et & Es);
      [rewrite length_app, Nat2Z.inj_add; lia | exact Hbuf |].
    assert (Ev : overruns (trace (demux_packet char_signed rohc_decompress3 cfg nread
                                    (pre ++ frame p ++ frames ps ++ post)
                                    (Z.of_nat (length pre)) d)) = []).
    { apply demux_packet_no_overrun. intros len p1 E.
      unfold frame in E. rewrite <- app_assoc in E.
      rewrite demux_separator_mux_separator in E;
        [| exact Hp | rewrite Hfl in Hfit; destruct (Z.of_nat (length p) <? 64); lia].
      injection E as <- _. exact Hp'. }
    specialize (IH (pre ++ frame p) post fuel d nread Hps' Hsmall').
    rewrite !length_app, !Nat2Z.inj_add, <- !app_assoc in IH.
    destruct IH as (Iw & Is & Iv & Il & Io); [lia | exact Hbuf | lia |].
    rewrite !length_app, !Nat2Z.inj_add, <- !app_assoc.
    rewrite (demux_loop_fuel char_signed decomp_ctx rohc_decompress3 cfg nread
               (pre ++ frame p ++ frames ps ++ post) (S fuel) fuel
               (Z.of_nat (length pre) + (Z.of_nat (length (frame p)) + Z.of_nat (length (frames ps)))))
      by lia.
    replace (Z.of_nat (length pre) + Z.of_nat (length (frame p)) + Z.of_nat (length (frames ps)))
      with (Z.of_nat (length pre) + (Z.of_nat (length (frame p)) + Z.of_nat (length (frames ps))))
      in * by lia.
    cbn [demux_loop].
    destruct (Z.ltb_spec (Z.of_nat (length pre)) nread); [|lia].
    rewrite outcome_bind, trace_bind, Eo. cbv beta iota.
    rewrite length_app, Nat2Z.inj_add.
    rewrite tap_writes_app, sent_datagrams_app, overruns_app, log_records_app,
      Et, Es, Ev, Iw, Is, Iv, Io.
    repeat split. intros rec Hrec. apply in_or_app. right. apply Il, Hrec.
Qed.

End InsideDemuxedPacket.

(** The loop over a datagram that is not empty starts by loading its first
    byte as a separator. *)
Lemma demux_loop_first_read (char_signed : bool) (decomp_ctx : Type)
    (rohc_decompress3 : decomp_ctx -> list byte -> decomp_ctx * rohc_status_t * list byte)
    (cfg : config) (fuel : nat) (nread : Z) (buf : list byte) (d : decomp_ctx) :
  0 < nread ->
  hd_error (net_reads (trace (demux_loop char_signed rohc_decompress3 (S fuel) cfg nread
                                buf 0 d))) = Some 0.
Proof.
  intros Hn. cbn [demux_loop]. destruct (Z.ltb_spec 0 nread); [|lia].
  unfold demux_packet, demux_separator.
  rewrite !trace_bind, net_load_trace, <- !app_assoc. reflexivity.
Qed.

(** ** The properties of the specification, at concrete inputs *)

(** C1: the round trip of a bundle (compression disabled) is broken where
    plain [char] is signed.  The sender, given one packet of 200 bytes, emits
    the bundle [40 c8] followed by the packet; the demultiplexer reads the
    second separator byte [c8] as the [char] -56, finds the length -56, and
    writes nothing of the packet to the tun/tap device. *)
Theorem C1_bundle_roundtrip_signed_char :
  let packet := repeat x61 200 in
  let bundle := [x40; xc8] ++ packet in
  sent_datagrams (trace (tap_event no_rohc plain_config initial_state packet 5)) = [bundle] /\
  tap_writes (trace (net_event true no_rohc plain_config initial_state bundle PORT)) = [] /\
  outcome (net_event true no_rohc plain_config initial_state bundle PORT)
    = Fault (NegativeLength (-56)).
Proof. repeat split; vm_compute; reflexivity. Qed.

(** C2: where plain [char] is signed, decoding the separator written for the
    length 200 yields the length -56 (with two bytes consumed), not 200. *)
Theorem C2_separator_roundtrip_signed_char :
  mux_separator 200 = [x40; xc8] /\
  outcome (demux_separator true (recvfrom (mux_separator 200) (buffer_from_net initial_state)) 0)
    = Ok (Some (-56, 2)).
Proof. split; vm_compute; reflexivity. Qed.

(** C3: a packet of 1499 bytes offered to the empty accumulator makes the
    sender emit an empty datagram (the MTU flush of the empty buffer) and then
    a bundle of 1501 bytes, one more than [MTU]; its last byte was stored at
    [muxed_packet[1500]], past the end of the array. *)
Theorem C3_bundle_longer_than_MTU :
  let r := tap_event no_rohc plain_config initial_state (repeat x61 1499) 5 in
  map (fun d => Z.of_nat (length d)) (sent_datagrams (trace r)) = [0; 1501] /\
  MTU < 1501 /\
  overruns (trace r) = [(Muxed_packet, 1500)].
Proof. repeat split; vm_compute; reflexivity. Qed.

(** C4: the flush made when the MTU would be exceeded empties the accumulator
    but leaves [time_last_sent_in_microsec] as it was.  With 1000 bytes stored
    since time 0, a packet of 600 bytes arriving at time 5 sends the 1000
    bytes; after the turn the time of the last sending is still 0. *)
Theorem C4_flush_mtu_keeps_time_last_sent :
  exists st1 st2 st3,
    outcome (tap_event no_rohc period_config initial_state (repeat x61 998) 1) = Ok st1 /\
    size_muxed_packet st1 = 1000 /\ time_last_sent_in_microsec st1 = 0 /\
    (predicted_size_muxed_packet (size_muxed_packet st1) 600 >? MTU) = true /\
    outcome (flush_mtu period_config st1) = Ok st2 /\
    num_pkts_stored_from_tap st2 = 0 /\ size_muxed_packet st2 = 0 /\
    time_last_sent_in_microsec st2 = 0 /\
    let r := tap_event no_rohc period_config st1 (repeat x62 600) 5 in
    map (fun d => Z.of_nat (length d)) (sent_datagrams (trace r)) = [1000] /\
    log_records (trace r) = [rec_native 600; sent_muxed 1000 1 ReasonMTU] /\
    outcome r = Ok st3 /\
    time_last_sent_in_microsec st3 = 0.
Proof.
  eexists; eexists; eexists.
  split; [vm_compute; reflexivity|].
  split; [vm_compute; reflexivity|].
  split; [reflexivity|].
  split; [vm_compute; reflexivity|].
  split; [vm_compute; reflexivity|].
  split; [reflexivity|].
  split; [reflexivity|].
  split; [reflexivity|].
  split; [vm_compute; reflexivity|].
  split; [vm_compute; reflexivity|].
  split; [vm_compute; reflexivity|].
  reflexivity.
Qed.

(** C5: a packet of 1499 bytes offered to the empty accumulator is not
    dropped.  A datagram is sent for it (the empty buffer, tagged MTU), the
    packet is stored behind its separator (the last byte past the end of
    [muxed_packet]) and, with the default triggers, sent at once. *)
Theorem C5_oversize_packet_not_dropped :
  let packet := repeat x61 1499 in
  let r := tap_event no_rohc plain_config initial_state packet 5 in
  muxed_packet initial_state = [] /\
  num_pkts_stored_from_tap initial_state = 0 /\
  (predicted_size_muxed_packet 0 1499 >? MTU) = true /\
  sent_datagrams (trace r) = [[]; mux_separator 1499 ++ packet] /\
  log_records (trace r) =
    [rec_native 1499; sent_muxed 0 0 ReasonMTU;
     sent_muxed 1501 1 (ReasonTrigger true true false)].
Proof. repeat split; vm_compute; reflexivity. Qed.

(** C6: with compression enabled, a payload for which the decompressor
    succeeds with an empty output is still written to the tun/tap device, as
    received: line 917 only tests [status]. *)
Theorem C6_feedback_only_packet_written :
  trace (net_event false feedback_only rohc_config initial_state [x02; xde; xad] PORT) =
    [Log (rec_muxed 3); NetRead 0; NetRead 1; NetRead 2;
     Log (rec_ROHC_feedback 3); TapWrite [xde; xad]; Log (sent_demuxed 2)].
Proof. vm_compute; reflexivity. Qed.

(** C7, as the code has it: with [limit_numpackets_tap] left at 0, the limit
    becomes 1 when the size threshold, the timeout and the period are all at
    their defaults, and [MAXPKTS] = 100 when at least one of them is strictly
    below its default. *)
Theorem C7_default_limit_numpackets_tap (size_threshold timeout period : Z) :
  (size_threshold = MAXTHRESHOLD /\ timeout = MAXTIMEOUT /\ period = MAXTIMEOUT ->
   default_limit_numpackets_tap size_threshold timeout period 0 = 1) /\
  (size_threshold < MAXTHRESHOLD \/ timeout < MAXTIMEOUT \/ period < MAXTIMEOUT ->
   default_limit_numpackets_tap size_threshold timeout period 0 = MAXPKTS /\ 100 <= MAXPKTS).
Proof.
  unfold default_limit_numpackets_tap, MAXPKTS. split.
  - intros (-> & -> & ->). reflexivity.
  - intros H.
    assert (Hb : (size_threshold <? MAXTHRESHOLD) || (timeout <? MAXTIMEOUT)
                 || (period <? MAXTIMEOUT) = true).
    { rewrite !orb_true_iff, !Z.ltb_lt. tauto. }
    rewrite Hb. cbn [andb Z.eqb].
    rewrite andb_false_r. split; [reflexivity | lia].
Qed.

(** The two cases at work: no trigger option, and a period of 10 ms. *)
Lemma C7_default_limit_numpackets_tap_witness :
  default_limit_numpackets_tap MAXTHRESHOLD MAXTIMEOUT MAXTIMEOUT 0 = 1 /\
  (default_limit_numpackets_tap MAXTHRESHOLD MAXTIMEOUT 10000 0 = MAXPKTS /\ 100 <= MAXPKTS).
Proof.
  split.
  - apply (proj1 (C7_default_limit_numpackets_tap MAXTHRESHOLD MAXTIMEOUT MAXTIMEOUT)).
    repeat split; reflexivity.
  - apply (proj2 (C7_default_limit_numpackets_tap MAXTHRESHOLD MAXTIMEOUT 10000)).
    right; right. reflexivity.
Defined.

(** C7 as stated fails: a size threshold of 2000 is not the default 1472,
    yet the limit is left at 0 instead of being set to [MAXPKTS]. *)
Lemma C7_limit_unset_above_default :
  2000 <> MAXTHRESHOLD /\
  default_limit_numpackets_tap 2000 MAXTIMEOUT MAXTIMEOUT 0 = 0 /\
  default_limit_numpackets_tap 2000 MAXTIMEOUT MAXTIMEOUT 0 <> MAXPKTS.
Proof. repeat split; vm_compute; discriminate. Qed.

(** C8: the two-byte datagram [7f ff] declares a payload longer than the
    datagram.  The copy of lines 784-787 runs before the test of line 790: it
    stores past the end of [demuxed_packet] and then loads past the end of
    [buffer_from_net]; the turn does not reach the [demux_bad_length] record. *)
Theorem C8_declared_length_outruns_buffers (char_signed : bool) :
  let r := net_event char_signed no_rohc plain_config initial_state [x7f; xff] PORT in
  log_records (trace r) = [rec_muxed 2] /\
  hd_error (overruns (trace r)) = Some (Demuxed_packet, MTU) /\
  outcome r = Fault (LoadOutside Buffer_from_net BUFSIZE).
Proof. destruct char_signed; repeat split; vm_compute; reflexivity. Qed.

(** C9, for the datagrams that fit in [buffer_from_net]: a datagram of at
    most [BUFSIZE] bytes is handed to the demultiplexer when its source port
    is the configured port, and only then.
    - From any other port, and only from one, no byte of the datagram is read
      as a separator and the one write to the tun/tap device is the datagram.
    - From the configured port the first byte of a datagram that is not empty
      is loaded as a separator; when the datagram is the frames of packets of
      at most [MTU] bytes (compression disabled, lengths that are read back)
      the packets are written to the device one by one, no store leaves
      [demuxed_packet] and the handler returns.
    - From any other port the whole run is the write of the datagram, as it
      is and with its length, and the [forward_native] record. *)
Theorem C9_net_event_routing (char_signed : bool) (comp_ctx decomp_ctx : Type)
    (rohc_decompress3 : decomp_ctx -> list byte -> decomp_ctx * rohc_status_t * list byte)
    (cfg : config) (st : state comp_ctx decomp_ctx) (datagram : list byte) :
  Z.of_nat (length datagram) <= BUFSIZE ->
  (forall remote_port,
     let r := net_event char_signed rohc_decompress3 cfg st datagram remote_port in
     remote_port <> port cfg <->
     net_reads (trace r) = [] /\ tap_writes (trace r) = [datagram]) /\
  (datagram <> [] ->
   hd_error (net_reads (trace (net_event char_signed rohc_decompress3 cfg st datagram
                                 (port cfg)))) = Some 0) /\
  (forall ps,
     compress_headers cfg = false ->
     datagram = frames ps ->
     Forall (fun p => length_read_back char_signed (Z.of_nat (length p))) ps ->
     Forall (fun p => Z.of_nat (length p) <= MTU) ps ->
     let r := net_event char_signed rohc_decompress3 cfg st datagram (port cfg) in
     tap_writes (trace r) = ps /\
     overruns (trace r) = [] /\
     exists st', outcome r = Ok st') /\
  (forall remote_port,
     remote_port <> port cfg ->
     net_event char_signed rohc_decompress3 cfg st datagram remote_port =
       (TapWrite datagram
          :: (if log_file cfg then [Log (forward_native (Z.of_nat (length datagram)))] else []),
        Ok {| buffer_from_net := recvfrom datagram (buffer_from_net st);
              muxed_packet := muxed_packet st;
              num_pkts_stored_from_tap := num_pkts_stored_from_tap st;
              time_last_sent_in_microsec := time_last_sent_in_microsec st;
              compressor := compressor st;
              decompressor := decompressor st |})).
Proof.
  intros Hbuf.
  assert (Hcut : firstn (Z.to_nat BUFSIZE) datagram = datagram) by (apply firstn_all2; lia).
  assert (Hnative : forall remote_port,
             remote_port <> port cfg ->
             net_event char_signed rohc_decompress3 cfg st datagram remote_port =
               (TapWrite datagram
                  :: (if log_file cfg
                      then [Log (forward_native (Z.of_nat (length datagram)))] else []),
                Ok {| buffer_from_net := recvfrom datagram (buffer_from_net st);
                      muxed_packet := muxed_packet st;
                      num_pkts_stored_from_tap := num_pkts_stored_from_tap st;
                      time_last_sent_in_microsec := time_last_sent_in_microsec st;
                      compressor := compressor st;
                      decompressor := decompressor st |})).
  { intros remote_port H. unfold net_event. rewrite Hcut.
    destruct (Z.eqb_spec (port cfg) remote_port) as [E | _]; [congruence|].
    unfold cwrite, recvfrom. rewrite Nat2Z.id, firstn_app, Nat.sub_diag, firstn_all.
    cbn [firstn]. rewrite app_nil_r.
    unfold logf. destruct (log_file cfg); reflexivity. }
  assert (Hmux : net_event char_signed rohc_decompress3 cfg st datagram (port cfg) =
                 (logf cfg (rec_muxed (Z.of_nat (length datagram))) ;;
                  d <- demux_loop char_signed rohc_decompress3 (length datagram) cfg
                         (Z.of_nat (length datagram))
                         (recvfrom datagram (buffer_from_net st)) 0 (decompressor st) ;;
                  ret {| buffer_from_net := recvfrom datagram (buffer_from_net st);
                         muxed_packet := muxed_packet st;
                         num_pkts_stored_from_tap := num_pkts_stored_from_tap st;
                         time_last_sent_in_microsec := time_last_sent_in_microsec st;
                         compressor := compressor st;
                         decompressor := d |})).
  { unfold net_event. rewrite Hcut, Z.eqb_refl, Nat2Z.id. reflexivity. }
  assert (Hfirst : datagram <> [] ->
                   hd_error (net_reads (trace (net_event char_signed rohc_decompress3 cfg st
                                                 datagram (port cfg)))) = Some 0).
  { intros Hne. rewrite Hmux.
    destruct (logf_trace cfg (rec_muxed (Z.of_nat (length datagram)))) as (_ & _ & _ & L & _).
    rewrite trace_bind, logf_outcome, trace_bind, !net_reads_app, L. cbn [app].
    destruct datagram as [|b rest]; [congruence|]. cbn [length].
    pose proof (demux_loop_first_read char_signed decomp_ctx rohc_decompress3 cfg
                  (length rest) (Z.of_nat (S (length rest)))
                  (recvfrom (b :: rest) (buffer_from_net st)) (decompressor st)
                  ltac:(lia)) as H.
    destruct (net_reads (trace (demux_loop char_signed rohc_decompress3 (S (length rest)) cfg
                                  (Z.of_nat (S (length rest)))
                                  (recvfrom (b :: rest) (buffer_from_net st)) 0
                                  (decompressor st)))); [discriminate H | exact H]. }
  split; [|split; [exact Hfirst | split; [|exact Hnative]]].
  - intros remote_port. cbv zeta. split.
    + intros H. rewrite (Hnative remote_port H).
      destruct (log_file cfg); split; reflexivity.
    + intros [Hr Hw] ->. destruct datagram as [|b rest].
      * rewrite Hmux in Hw. cbn [length demux_loop Z.of_nat Z.ltb Z.compare] in Hw.
        destruct (logf_trace cfg (rec_muxed 0)) as (L & _).
        rewrite trace_bind, logf_outcome, tap_writes_app, L in Hw. discriminate Hw.
      * rewrite Hr in Hfirst. discriminate Hfirst. discriminate.
  - intros ps Hcomp -> Hps Hsmall. cbv zeta.
    destruct (net_event_frames char_signed comp_ctx decomp_ctx rohc_decompress3 cfg st ps
                Hcomp Hps Hbuf) as (Hw & _ & Ho).
    split; [exact Hw|]. split; [|eexists; exact Ho].
    rewrite Hmux.
    apply bind_no_overrun; [apply logf_trace|]. intros _ _.
    apply bind_no_overrun; [|reflexivity].
    destruct (demux_loop_frames_then char_signed decomp_ctx rohc_decompress3 cfg Hcomp ps []
                (skipn (length (frames ps)) (buffer_from_net st)) (length (frames ps))
                (decompressor st) (Z.of_nat (length (frames ps))) Hps Hsmall)
      as (_ & _ & Hv & _); [cbn [app]; lia | exact Hbuf | cbn [length]; lia |].
    cbn [app length] in Hv. change (Z.of_nat 0) with 0 in Hv.
    unfold recvfrom. rewrite Hv.
    destruct (length (frames ps)); cbn [demux_loop]; rewrite Z.ltb_irrefl; reflexivity.
Qed.

(** The three bytes [02 45 00]: from the configured port the packet [45 00]
    is written, from port 53 the three bytes are. *)
Lemma C9_net_event_routing_witness :
  tap_writes (trace (net_event false no_rohc plain_config initial_state [x02; x45; x00]
                       (port plain_config))) = [[x45; x00]] /\
  hd_error (net_reads (trace (net_event false no_rohc plain_config initial_state
                                [x02; x45; x00] (port plain_config)))) = Some 0 /\
  net_event false no_rohc plain_config initial_state [x02; x45; x00] 53 =
    ([TapWrite [x02; x45; x00]; Log (forward_native 3)],
     Ok {| buffer_from_net := recvfrom [x02; x45; x00] (buffer_from_net initial_state);
           muxed_packet := [];
           num_pkts_stored_from_tap := 0;
           time_last_sent_in_microsec := 0;
           compressor := tt;
           decompressor := tt |}).
Proof.
  assert (Hbuf : Z.of_nat (length [x02; x45; x00]) <= BUFSIZE) by (vm_compute; discriminate).
  pose proof (C9_net_event_routing false unit unit no_rohc plain_config initial_state
                [x02; x45; x00] Hbuf) as (_ & Hfirst & Hmux & Hnative).
  split; [|split].
  - apply (Hmux [[x45; x00]] eq_refl eq_refl).
    + repeat constructor; cbn; lia.
    + repeat constructor; vm_compute; discriminate.
  - apply Hfirst. discriminate.
  - apply (Hnative 53). vm_compute. discriminate.
Defined.

(** C9 as stated fails for a datagram longer than [buffer_from_net]: of
    2001 bytes that arrive from port 53, the first 2000 are written to the
    tun/tap device and recorded. *)
Lemma C9_long_datagram_is_cut :
  let datagram := repeat x45 2001 in
  let r := net_event false no_rohc plain_config initial_state datagram 53 in
  53 <> port plain_config /\
  tap_writes (trace r) = [repeat x45 2000] /\
  tap_writes (trace r) <> [datagram] /\
  log_records (trace r) = [forward_native 2000].
Proof.
  cbv zeta. split; [vm_compute; discriminate|].
  assert (H : tap_writes (trace (net_event false no_rohc plain_config initial_state
                                   (repeat x45 2001) 53)) = [repeat x45 2000])
    by (vm_compute; reflexivity).
  split; [exact H|]. split.
  - rewrite H. intros E. apply (f_equal (map (@length byte))) in E.
    vm_compute in E. discriminate E.
  - vm_compute. reflexivity.
Qed.

(** C10: the demultiplexer loads cells of [buffer_from_net] at and after
    [nread_from_net].
    - In the datagram [03 61 62] the separator declares three bytes and two
      follow: the copy loads the cells 1, 2 and 3 before the length test
      writes the [demux_bad_length] record.
    - In the datagram [40] the only byte is the first of a two-byte
      separator: the second is loaded from cell 1.
    - In a datagram of [BUFSIZE] bytes that ends with [40] the second
      separator byte is loaded from outside the array. *)
Theorem C10_loads_past_the_datagram :
  trace (net_event false no_rohc plain_config initial_state [x03; x61; x62] PORT) =
    [Log (rec_muxed 3); NetRead 0; NetRead 1; NetRead 2; NetRead 3;
     Log (error_demux_bad_length 3)] /\
  trace (net_event false no_rohc plain_config initial_state [x40] PORT) =
    [Log (rec_muxed 1); NetRead 0; NetRead 1; Log (error_demux_bad_length 1)] /\
  (let datagram := [x45; xda] ++ repeat x61 1498 ++ [x41; xf1] ++ repeat x62 497 ++ [x40] in
   Z.of_nat (length datagram) = BUFSIZE /\
   outcome (net_event false no_rohc plain_config initial_state datagram PORT)
     = Fault (LoadOutside Buffer_from_net BUFSIZE)).
Proof. repeat split; vm_compute; reflexivity. Qed.

(** ** Further properties of the code *)

(** *** The helper functions *)

(** X1: [ToByte] and [FromByte] are inverse of each other on the 256 values
    of an [unsigned char] and the arrays of 8 booleans, and [b[0]] is the
    least significant bit. *)
Theorem FromByte_ToByte_inverse (c : byte) (b0 b1 b2 b3 b4 b5 b6 b7 : bool) :
  ToByte (FromByte (byte.unsigned c)) = byte.unsigned c /\
  FromByte (ToByte [b0; b1; b2; b3; b4; b5; b6; b7]) = [b0; b1; b2; b3; b4; b5; b6; b7] /\
  nth 0 (FromByte (byte.unsigned c)) false = Z.odd (byte.unsigned c) /\
  nth 7 (FromByte (byte.unsigned c)) false = (128 <=? byte.unsigned c).
Proof.
  split; [destruct c; reflexivity|].
  split; [destruct b0, b1, b2, b3, b4, b5, b6, b7; reflexivity|].
  split; destruct c; reflexivity.
Qed.

(** X2: when the debug level reaches the level asked, [PrintByte] writes
    eight characters, each of them "0" or "1", the most significant bit
    first: they are the binary numeral of the byte, and the character at
    place [k] is "1" exactly when [b[7-k]] is set.  Below that level it writes
    nothing. *)
Theorem PrintByte_most_significant_first (debug level : Z) (c : byte) :
  (level <= debug ->
   binary_value 0 (PrintByte debug level (FromByte (byte.unsigned c)))
     = Some (byte.unsigned c) /\
   String.length (PrintByte debug level (FromByte (byte.unsigned c))) = 8%nat /\
   forall k, (k < 8)%nat ->
     String.get k (PrintByte debug level (FromByte (byte.unsigned c)))
       = Some (if nth (7 - k) (FromByte (byte.unsigned c)) false
               then "1"%char else "0"%char)) /\
  (debug < level ->
   PrintByte debug level (FromByte (byte.unsigned c)) = EmptyString).
Proof.
  unfold PrintByte, do_debug. split; intros H.
  - destruct (Z.leb_spec level debug); [|lia].
    split; [destruct c; reflexivity|]. split; [destruct c; reflexivity|].
    intros k Hk.
    destruct k as [|[|[|[|[|[|[|[|k]]]]]]]]; [..|lia]; destruct c; reflexivity.
  - destruct (Z.leb_spec level debug); [lia|]. reflexivity.
Qed.

(** The byte 2a, an asterisk, is printed 00101010 at debug level 2. *)
Lemma PrintByte_most_significant_first_witness :
  binary_value 0 (PrintByte 2 2 (FromByte (byte.unsigned x2a))) = Some (byte.unsigned x2a) /\
  String.length (PrintByte 2 2 (FromByte (byte.unsigned x2a))) = 8%nat /\
  forall k, (k < 8)%nat ->
    String.get k (PrintByte 2 2 (FromByte (byte.unsigned x2a)))
      = Some (if nth (7 - k) (FromByte (byte.unsigned x2a)) false
              then "1"%char else "0"%char).
Proof.
  apply (proj1 (PrintByte_most_significant_first 2 2 x2a)). lia.
Defined.

Lemma GetTimeStamp_exact (tv_sec tv_usec : Z) :
  0 <= tv_sec -> 0 <= tv_usec -> tv_sec * 1000000 + tv_usec < 2 ^ 64 ->
  GetTimeStamp tv_sec tv_usec = tv_sec * 1000000 + tv_usec.
Proof.
  intros Hs Hu Hfit. unfold GetTimeStamp, uint64.
  rewrite (Z.mod_small tv_sec) by lia.
  rewrite (Z.mod_small tv_usec) by lia.
  rewrite (Z.mod_small (tv_sec * 1000000)) by lia.
  apply Z.mod_small. lia.
Qed.

(** X3: as long as the count of microseconds fits 64 bits, [GetTimeStamp]
    orders two readings of the clock as the clock does, and the difference
    computed in [uint64_t], as at lines 1130 and 1176, is the elapsed time
    in microseconds. *)
Theorem GetTimeStamp_elapsed (s1 u1 s2 u2 : Z) :
  0 <= s1 ->
  0 <= u1 < 1000000 ->
  0 <= u2 < 1000000 ->
  s2 * 1000000 + u2 < 2 ^ 64 ->
  s1 < s2 \/ (s1 = s2 /\ u1 <= u2) ->
  GetTimeStamp s1 u1 <= GetTimeStamp s2 u2 /\
  uint64 (GetTimeStamp s2 u2 - GetTimeStamp s1 u1) = (s2 - s1) * 1000000 + (u2 - u1).
Proof.
  intros Hs1 Hu1 Hu2 Hfit Hord.
  rewrite (GetTimeStamp_exact s1 u1) by lia.
  rewrite (GetTimeStamp_exact s2 u2) by lia.
  split; [lia|]. unfold uint64.
  replace (s2 * 1000000 + u2 - (s1 * 1000000 + u1))
    with ((s2 - s1) * 1000000 + (u2 - u1)) by lia.
  apply Z.mod_small. lia.
Qed.

(** Two readings 1.5 s apart. *)
Lemma GetTimeStamp_elapsed_witness :
  GetTimeStamp 1700000000 900000 <= GetTimeStamp 1700000002 400000 /\
  uint64 (GetTimeStamp 1700000002 400000 - GetTimeStamp 1700000000 900000)
    = (1700000002 - 1700000000) * 1000000 + (400000 - 900000).
Proof.
  apply (GetTimeStamp_elapsed 1700000000 900000 1700000002 400000); lia.
Defined.

(** X4: the wait given to [select] is what is left of the period since the
    last sending, and zero once the period has elapsed; it never exceeds the
    period. *)
Theorem microseconds_left_is_the_rest_of_the_period (period now last : Z) :
  0 <= period < 2 ^ 64 ->
  0 <= last <= now ->
  now < 2 ^ 64 ->
  microseconds_left period now last = Z.max 0 (period - (now - last)) /\
  0 <= microseconds_left period now last <= period /\
  (microseconds_left period now last = 0 <-> period <= now - last).
Proof.
  intros Hp Hl Hn. unfold microseconds_left, uint64.
  rewrite (Z.mod_small (now - last)) by lia.
  destruct (Z.gtb_spec period (now - last)).
  - rewrite Z.mod_small by lia. lia.
  - lia.
Qed.

(** A period of 10 ms, 4 ms after the last sending. *)
Lemma microseconds_left_is_the_rest_of_the_period_witness :
  microseconds_left 10000 5004000 5000000 = Z.max 0 (10000 - (5004000 - 5000000)) /\
  0 <= microseconds_left 10000 5004000 5000000 <= 10000 /\
  (microseconds_left 10000 5004000 5000000 = 0 <-> 10000 <= 5004000 - 5000000).
Proof.
  apply (microseconds_left_is_the_rest_of_the_period 10000 5004000 5000000); lia.
Defined.

(** *** [read_n] *)

Lemma stream_bytes_data (chunks : list (list byte)) (tail : list available) :
  stream_bytes (map Data chunks ++ tail) = concat chunks ++ stream_bytes tail.
Proof.
  induction chunks as [|c chunks IH]; [reflexivity|].
  cbn. now rewrite IH, app_assoc.
Qed.

Lemma read_n_loop_done (fuel : nat) (fd : list available) (buf : list byte) (n : Z) :
  read_n_loop fuel fd buf 0 n = Returned n buf fd.
Proof. destruct fuel; reflexivity. Qed.

Lemma read_n_loop_data (chunks : list (list byte)) :
  forall (fuel : nat) (buf : list byte) (left n : Z) (tail : list available),
    Forall (fun c => c <> []) chunks ->
    0 <= left <= Z.of_nat (length (concat chunks)) ->
    left <= Z.of_nat fuel ->
    exists fd',
      read_n_loop fuel (map Data chunks ++ tail) buf left n
        = Returned n (buf ++ firstn (Z.to_nat left) (concat chunks)) fd' /\
      stream_bytes fd' = skipn (Z.to_nat left) (concat chunks) ++ stream_bytes tail.
Proof.
  induction chunks as [|c chunks IH]; intros fuel buf left n tail Hne Hleft Hfuel.
  - cbn [concat length] in Hleft. assert (left = 0) by lia. subst left.
    rewrite read_n_loop_done. exists (map Data [] ++ tail).
    cbn. now rewrite app_nil_r.
  - destruct (Z.eq_dec left 0) as [-> | Hpos].
    + rewrite read_n_loop_done. eexists. split.
      * cbn [Z.to_nat firstn]. now rewrite app_nil_r.
      * apply stream_bytes_data.
    + inversion Hne as [|? ? Hc Hne']; subst.
      destruct fuel as [|fuel]; [lia|].
      cbn [read_n_loop map app]. destruct (Z.gtb_spec left 0); [|lia].
      cbn [concat] in *. rewrite length_app in Hleft.
      unfold cread.
      destruct (Nat.le_gt_cases (length c) (Z.to_nat left)) as [Hall | Hpart].
      * rewrite skipn_all2, firstn_all2 by exact Hall.
        assert (Hlen : Z.of_nat (length c) <> 0) by (destruct c; [congruence | cbn; lia]).
        destruct (Z.eqb_spec (Z.of_nat (length c)) 0); [contradiction|].
        destruct (IH fuel (buf ++ c) (left - Z.of_nat (length c)) n tail Hne')
          as (fd' & E & Hs); [lia | lia |].
        assert (F : firstn (Z.to_nat left) c = c) by (apply firstn_all2; exact Hall).
        assert (K : skipn (Z.to_nat left) c = []) by (apply skipn_all2; exact Hall).
        exists fd'. rewrite E. split.
        -- rewrite firstn_app, F, <- app_assoc. repeat f_equal. lia.
        -- rewrite Hs, skipn_app, K. cbn [app]. repeat f_equal. lia.
      * destruct (skipn (Z.to_nat left) c) as [|r rest] eqn:Er.
        { apply (f_equal (@length byte)) in Er. rewrite length_skipn in Er.
          cbn in Er. lia. }
        rewrite length_firstn, Nat.min_l by lia. rewrite Z2Nat.id by lia.
        destruct (Z.eqb_spec left 0); [contradiction|].
        rewrite Z.sub_diag, read_n_loop_done. eexists. split.
        -- rewrite firstn_app.
           replace (Z.to_nat left - length c)%nat with 0%nat by lia.
           cbn [firstn]. now rewrite app_nil_r.
        -- cbn [stream_bytes]. rewrite stream_bytes_data, skipn_app, Er.
           replace (Z.to_nat left - length c)%nat with 0%nat by lia.
           cbn [skipn]. now rewrite <- app_assoc.
Qed.

(** X5: when the stream holds at least [n] bytes, [read_n] returns [n] and
    delivers exactly the first [n] bytes of the stream, however the bytes came
    split over the calls of [read]; the bytes after them stay in the stream. *)
Theorem read_n_delivers_n_bytes (chunks : list (list byte)) (tail : list available) (n : Z) :
  Forall (fun c => c <> []) chunks ->
  0 < n <= Z.of_nat (length (concat chunks)) ->
  exists fd',
    read_n (map Data chunks ++ tail) n
      = Returned n (firstn (Z.to_nat n) (concat chunks)) fd' /\
    stream_bytes fd' = skipn (Z.to_nat n) (concat chunks) ++ stream_bytes tail.
Proof.
  intros Hne Hn. unfold read_n.
  destruct (read_n_loop_data chunks (Z.to_nat n) [] n n tail Hne) as (fd' & E & Hs);
    [lia | lia |].
  exists fd'. split; [exact E | exact Hs].
Qed.

(** Four bytes asked of a stream that delivers three, then two. *)
Lemma read_n_delivers_n_bytes_witness :
  exists fd',
    read_n (map Data [[x01; x02; x03]; [x04; x05]] ++ []) 4
      = Returned 4 (firstn (Z.to_nat 4) (concat [[x01; x02; x03]; [x04; x05]])) fd' /\
    stream_bytes fd' = skipn (Z.to_nat 4) (concat [[x01; x02; x03]; [x04; x05]])
                         ++ stream_bytes [].
Proof.
  apply (read_n_delivers_n_bytes [[x01; x02; x03]; [x04; x05]] [] 4).
  - repeat constructor; discriminate.
  - cbn. lia.
Defined.

Lemma read_n_loop_end_of_file (chunks : list (list byte)) :
  forall (fuel : nat) (buf : list byte) (left n : Z),
    Forall (fun c => c <> []) chunks ->
    Z.of_nat (length (concat chunks)) < left ->
    left <= Z.of_nat fuel ->
    read_n_loop fuel (map Data chunks) buf left n = Returned 0 (buf ++ concat chunks) [].
Proof.
  induction chunks as [|c chunks IH]; intros fuel buf left n Hne Hleft Hfuel.
  - cbn [concat length] in Hleft. destruct fuel as [|fuel]; [lia|].
    cbn. destruct (Z.gtb_spec left 0); [|lia]. reflexivity.
  - inversion Hne as [|? ? Hc Hne']; subst.
    cbn [concat] in *. rewrite length_app in Hleft.
    destruct fuel as [|fuel]; [lia|].
    cbn [read_n_loop map]. destruct (Z.gtb_spec left 0); [|lia].
    unfold cread. rewrite skipn_all2, firstn_all2 by lia.
    assert (Hlen : Z.of_nat (length c) <> 0) by (destruct c; [congruence | cbn; lia]).
    destruct (Z.eqb_spec (Z.of_nat (length c)) 0); [contradiction|].
    rewrite IH by (auto; lia). now rewrite <- app_assoc.
Qed.

(** X6: the edges of [read_n].  Asked for no byte, or a negative count, it
    returns the count without reading.  When the stream ends before [n] bytes
    came it returns 0, whatever it had read by then.  When [read] fails before
    [n] bytes came, the program exits. *)
Theorem read_n_edges (fd : list available) (chunks : list (list byte)) (n : Z) :
  (n <= 0 -> read_n fd n = Returned n [] fd) /\
  (Forall (fun c => c <> []) chunks ->
   Z.of_nat (length (concat chunks)) < n ->
   read_n (map Data chunks) n = Returned 0 (concat chunks) [] /\
   read_n (map Data chunks ++ ReadError :: fd) n = Exited).
Proof.
  split.
  - intros Hn. unfold read_n.
    destruct (Z.to_nat n); cbn; (destruct (Z.gtb_spec n 0); [lia | reflexivity]).
  - intros Hne Hlen. unfold read_n. split.
    + rewrite read_n_loop_end_of_file by (auto; lia). reflexivity.
    + assert (G : forall cs fuel buf left,
                 Forall (fun c : list byte => c <> []) cs ->
                 Z.of_nat (length (concat cs)) < left ->
                 left <= Z.of_nat fuel ->
                 read_n_loop fuel (map Data cs ++ ReadError :: fd) buf left n = Exited).
      { induction cs as [|c cs IH]; intros fuel buf left Hcs Hl Hf.
        - cbn [concat length] in Hl. destruct fuel as [|fuel]; [lia|].
          cbn. destruct (Z.gtb_spec left 0); [|lia]. reflexivity.
        - inversion Hcs as [|? ? Hc Hcs']; subst.
          cbn [concat] in *. rewrite length_app in Hl.
          destruct fuel as [|fuel]; [lia|].
          cbn [read_n_loop map app]. destruct (Z.gtb_spec left 0); [|lia].
          unfold cread. rewrite skipn_all2, firstn_all2 by lia.
          assert (Hlen' : Z.of_nat (length c) <> 0)
            by (destruct c; [congruence | cbn; lia]).
          destruct (Z.eqb_spec (Z.of_nat (length c)) 0); [contradiction|].
          apply IH; [assumption | lia | lia]. }
      apply G; [assumption | lia | lia].
Qed.

(** Five bytes asked of a stream of three bytes. *)
Lemma read_n_edges_witness :
  read_n (map Data [[x01; x02; x03]]) 5 = Returned 0 (concat [[x01; x02; x03]]) [] /\
  read_n (map Data [[x01; x02; x03]] ++ ReadError :: []) 5 = Exited.
Proof.
  apply (proj2 (read_n_edges [] [[x01; x02; x03]] 5)).
  - repeat constructor; discriminate.
  - cbn. lia.
Defined.

(** *** The separator, on every target *)

(** X7: for every length up to 16383 the demultiplexer, reading the
    separator the sender wrote at the start of a datagram, consumes one byte
    when the length is below 64 and two otherwise, and finds
    [decoded_length]: the length itself exactly when plain [char] is
    unsigned, or the length is below 64, or its low byte is below 128; and
    256 less otherwise. *)
Theorem separator_read_back (char_signed : bool) (len : Z) (rest old : list byte) :
  0 <= len <= 16383 ->
  outcome (demux_separator char_signed (recvfrom (mux_separator len ++ rest) old) 0)
    = Ok (Some (decoded_length char_signed len, if len <? 64 then 1 else 2)) /\
  (decoded_length char_signed len = len <->
   char_signed = false \/ len < 64 \/ Z.rem len 256 < 128) /\
  (decoded_length char_signed len <> len -> decoded_length char_signed len = len - 256).
Proof.
  intros Hlen. split; [|split].
  - unfold recvfrom. rewrite <- app_assoc.
    apply (demux_separator_written char_signed [] _ len Hlen).
    cbn [length]. destruct (len <? 64); unfold BUFSIZE; lia.
  - unfold decoded_length. destruct char_signed; cbn [andb].
    2:{ split; [intros _; now left | reflexivity]. }
    destruct (Z.leb_spec 64 len) as [A | A]; cbn [andb].
    2:{ split; [intros _; right; left; lia | reflexivity]. }
    destruct (Z.leb_spec 128 (Z.rem len 256)) as [B | B].
    + split; [lia | intros [C | [C | C]]; [discriminate | lia | lia]].
    + split; [intros _; right; right; lia | reflexivity].
  - unfold decoded_length.
    destruct (char_signed && (64 <=? len) && (128 <=? Z.rem len 256)); [reflexivity | congruence].
Qed.

(** The length 300, whose low byte is 44, on a target with signed [char]. *)
Lemma separator_read_back_witness :
  outcome (demux_separator true (recvfrom (mux_separator 300 ++ [x61]) []) 0)
    = Ok (Some (decoded_length true 300, if 300 <? 64 then 1 else 2)) /\
  (decoded_length true 300 = 300 <-> true = false \/ 300 < 64 \/ Z.rem 300 256 < 128) /\
  (decoded_length true 300 <> 300 -> decoded_length true 300 = 300 - 256).
Proof.
  apply (separator_read_back true 300 [x61] []). lia.
Defined.

(** *** The two directions do not meet *)

Lemma bind_sends_nothing {A B : Type} (m : run A) (k : A -> run B) :
  sent_datagrams (trace m) = [] ->
  (forall a, sent_datagrams (trace (k a)) = []) ->
  sent_datagrams (trace (bind m k)) = [].
Proof.
  intros Hm Hk. rewrite trace_bind, sent_datagrams_app, Hm.
  destruct (outcome m); [apply Hk | reflexivity].
Qed.

Section Receiver.

Variable char_signed : bool.
Variable decomp_ctx : Type.
Variable rohc_decompress3 : decomp_ctx -> list byte -> decomp_ctx * rohc_status_t * list byte.
Variable cfg : config.

Lemma decompress_block_sends_nothing (nread : Z) (dem : list byte) (len : Z) (d : decomp_ctx) :
  sent_datagrams (trace (decompress_block rohc_decompress3 cfg nread dem len d)) = [].
Proof.
  unfold decompress_block.
  destruct (rohc_decompress3 d (firstn (Z.to_nat len) dem)) as [[d' status] ip].
  destruct (status_is_OK status); [destruct ip as [|b ip]|].
  - apply bind_sends_nothing; [apply logf_trace | reflexivity].
  - apply bind_sends_nothing; [|reflexivity].
    destruct (MTU <? Z.of_nat (length (b :: ip))); reflexivity.
  - apply bind_sends_nothing; [apply logf_trace | reflexivity].
Qed.

Lemma demux_packet_sends_nothing (nread : Z) (buf : list byte) (position : Z)
    (d : decomp_ctx) :
  sent_datagrams (trace (demux_packet char_signed rohc_decompress3 cfg nread buf position d))
  = [].
Proof.
  unfold demux_packet.
  apply bind_sends_nothing; [apply demux_separator_trace|].
  intros [[len p1]|]; [|apply bind_sends_nothing; [apply logf_trace | reflexivity]].
  apply bind_sends_nothing; [apply copy_loop_trace|].
  intros [dem p2]. cbv beta iota.
  destruct (p2 >? nread); [apply bind_sends_nothing; [apply logf_trace | reflexivity]|].
  destruct (len <? 0); [reflexivity|].
  apply bind_sends_nothing.
  - destruct (compress_headers cfg); [apply decompress_block_sends_nothing | reflexivity].
  - intros [[[status dem'] len'] d']. cbv beta iota.
    apply bind_sends_nothing; [|reflexivity].
    match goal with |- context [if ?b then _ else _] => destruct b end; [|reflexivity].
    apply bind_sends_nothing; [reflexivity | intros; apply logf_trace].
Qed.

Lemma demux_loop_sends_nothing (fuel : nat) (nread : Z) (buf : list byte) (position : Z)
    (d : decomp_ctx) :
  sent_datagrams (trace (demux_loop char_signed rohc_decompress3 fuel cfg nread buf position d))
  = [].
Proof.
  revert position d. induction fuel as [|fuel IH]; intros position d; cbn [demux_loop];
    destruct (position <? nread); try reflexivity.
  apply bind_sends_nothing; [apply demux_packet_sends_nothing|].
  intros [p' d']. apply IH.
Qed.

End Receiver.

(** *** Bundles with a malformed part, and bundles end to end *)

Section Bundles.

Variable char_signed : bool.
Variables comp_ctx decomp_ctx : Type.
Variable rohc_compress4 : comp_ctx -> list byte -> comp_ctx * rohc_status_t * list byte.
Variable rohc_decompress3 : decomp_ctx -> list byte -> decomp_ctx * rohc_status_t * list byte.
Variable cfg : config.
Hypothesis no_compression : compress_headers cfg = false.

(** X8: a separator with its first bit set, met after the frames of some
    packets of at most [MTU] bytes, ends the handling of the datagram: the
    packets before it are written to the device, nothing of what follows is,
    no store leaves [demuxed_packet], the [bad_separator] record is logged,
    and the handler returns normally. *)
Theorem bad_separator_discards_the_rest (st : state comp_ctx decomp_ctx)
    (ps : list (list byte)) (c : byte) (junk : list byte) :
  Forall (fun p => length_read_back char_signed (Z.of_nat (length p))) ps ->
  Forall (fun p => Z.of_nat (length p) <= MTU) ps ->
  128 <= byte.unsigned c ->
  Z.of_nat (length (frames ps ++ c :: junk)) <= BUFSIZE ->
  let datagram := frames ps ++ c :: junk in
  let r := net_event char_signed rohc_decompress3 cfg st datagram (port cfg) in
  tap_writes (trace r) = ps /\
  sent_datagrams (trace r) = [] /\
  overruns (trace r) = [] /\
  (log_file cfg = true ->
   In (error_bad_separator (Z.of_nat (length datagram))) (log_records (trace r))) /\
  exists st', outcome r = Ok st'.
Proof.
  intros Hps Hsmall Hc Hbuf. cbv zeta. unfold net_event.
  rewrite (firstn_all2 (n := Z.to_nat BUFSIZE) (frames ps ++ c :: junk)) by lia.
  rewrite Z.eqb_refl. cbn [decompressor buffer_from_net].
  set (datagram := frames ps ++ c :: junk) in *.
  set (nread := Z.of_nat (length datagram)) in *.
  set (old := skipn (length datagram) (buffer_from_net st)).
  assert (Hn : Z.of_nat (length (frames ps)) + 1 <= nread).
  { subst nread datagram. rewrite length_app. cbn [length]. lia. }
  destruct (demux_loop_frames_then char_signed decomp_ctx rohc_decompress3 cfg no_compression
              ps [] (c :: junk ++ old) (Z.to_nat nread)
              (decompressor st) nread Hps Hsmall) as (Ew & Es & Ev & El & Eo);
    [cbn [app length]; lia | exact Hbuf | cbn [length]; lia |].
  cbn [app length] in Ew, Es, Ev, El, Eo. change (Z.of_nat 0) with 0 in *.
  assert (Hbufeq : recvfrom datagram (buffer_from_net st) = frames ps ++ c :: junk ++ old).
  { unfold recvfrom. subst datagram old. now rewrite <- app_assoc. }
  rewrite Hbufeq.
  destruct (Z.to_nat nread) as [|fuel] eqn:Efuel; [lia|].
  assert (Ebad := demux_loop_bad_separator char_signed decomp_ctx rohc_decompress3 cfg nread
             (frames ps ++ c :: junk ++ old) (Z.of_nat (length (frames ps))) c fuel
             (decompressor st)).
  rewrite Nat2Z.id in Ebad.
  specialize (Ebad ltac:(lia) Hbuf (nth_error_middle _ _ _) Hc).
  rewrite Ebad in Ew, Es, Ev, El, Eo.
  cbn [trace outcome fst snd] in Ew, Es, Ev, El, Eo.
  destruct (logf_trace cfg (rec_muxed nread)) as (L1 & L2 & L3 & _).
  rewrite outcome_bind, trace_bind, logf_outcome. cbv beta iota.
  rewrite outcome_bind, trace_bind, Eo. cbv beta iota.
  rewrite !tap_writes_app, !sent_datagrams_app, !overruns_app, !log_records_app,
    L1, L2, L3, Ew, Es, Ev.
  cbn [trace outcome ret fst snd]. split; [|split; [|split; [|split]]].
  - destruct (log_file cfg); cbn; now rewrite !app_nil_r.
  - destruct (log_file cfg); reflexivity.
  - destruct (log_file cfg); reflexivity.
  - intros Hlog. apply in_or_app. right. apply in_or_app. left.
    apply El. rewrite Hlog. cbn. auto.
  - eexists. reflexivity.
Qed.

(** The turn over a separator that declares more bytes than the datagram
    still holds stops after the bytes declared. *)
Lemma demux_packet_truncated (nread : Z) (buf : list byte) (position len p1 : Z)
    (d : decomp_ctx) :
  Z.of_nat (length buf) = BUFSIZE ->
  0 <= position < nread ->
  outcome (demux_separator char_signed buf position) = Ok (Some (len, p1)) ->
  nread < p1 + Z.max 0 len ->
  p1 + Z.max 0 len <= BUFSIZE ->
  outcome (demux_packet char_signed rohc_decompress3 cfg nread buf position d)
  = Ok (p1 + Z.max 0 len, d).
Proof.
  intros Hbuf Hpos Es Hover Hin.
  pose proof (demux_separator_position _ _ _ _ _ Es) as Hp1.
  destruct (copy_loop_inside (Z.to_nat len) 0 p1 buf [] Hbuf) as [dem Ec]; try lia.
  replace (p1 + Z.of_nat (Z.to_nat len)) with (p1 + Z.max 0 len) in Ec by lia.
  unfold demux_packet.
  repeat (progress (rewrite ?outcome_bind, ?Es, ?Ec; cbv beta iota)).
  destruct (Z.gtb_spec (p1 + Z.max 0 len) nread); [|lia].
  rewrite outcome_bind, logf_outcome. reflexivity.
Qed.

(** X9: a separator that declares more bytes than the datagram still
    holds, met after the frames of some packets of at most [MTU] bytes, ends
    the handling of the datagram as long as the bytes declared are at most
    [MTU] and end inside [buffer_from_net]: the packets before it are written
    to the device, the partial one is not, no store leaves [demuxed_packet],
    the [demux_bad_length] record is logged, and the handler returns
    normally. *)
Theorem truncated_payload_discards_the_rest (st : state comp_ctx decomp_ctx)
    (ps : list (list byte)) (len : Z) (partial : list byte) :
  Forall (fun p => length_read_back char_signed (Z.of_nat (length p))) ps ->
  Forall (fun p => Z.of_nat (length p) <= MTU) ps ->
  Z.of_nat (length (buffer_from_net st)) = BUFSIZE ->
  0 <= len <= 16383 ->
  Z.of_nat (length partial) < decoded_length char_signed len ->
  decoded_length char_signed len <= MTU ->
  Z.of_nat (length (frames ps)) + (if len <? 64 then 1 else 2)
    + decoded_length char_signed len <= BUFSIZE ->
  let datagram := frames ps ++ mux_separator len ++ partial in
  let r := net_event char_signed rohc_decompress3 cfg st datagram (port cfg) in
  tap_writes (trace r) = ps /\
  sent_datagrams (trace r) = [] /\
  overruns (trace r) = [] /\
  (log_file cfg = true ->
   In (error_demux_bad_length (Z.of_nat (length datagram))) (log_records (trace r))) /\
  exists st', outcome r = Ok st'.
Proof.
  intros Hps Hsmall Hold Hlen Hpart Hdecl Hin. cbv zeta.
  pose proof (mux_separator_length len) as Hsep.
  assert (Hsl : 1 <= (if len <? 64 then 1 else 2)) by (destruct (len <? 64); lia).
  assert (Hcut : Z.of_nat (length (frames ps ++ mux_separator len ++ partial)) <= BUFSIZE).
  { rewrite !length_app, !Nat2Z.inj_add. lia. }
  unfold net_event.
  rewrite (firstn_all2 (n := Z.to_nat BUFSIZE) (frames ps ++ mux_separator len ++ partial))
    by lia.
  rewrite Z.eqb_refl. cbn [decompressor buffer_from_net].
  set (datagram := frames ps ++ mux_separator len ++ partial) in *.
  set (nread := Z.of_nat (length datagram)) in *.
  set (old := skipn (length datagram) (buffer_from_net st)).
  assert (Hn : nread = Z.of_nat (length (frames ps)) + (if len <? 64 then 1 else 2)
                       + Z.of_nat (length partial)).
  { subst nread datagram. rewrite !length_app, !Nat2Z.inj_add. lia. }
  assert (Hbuf : nread <= BUFSIZE) by lia.
  assert (Hbufeq : recvfrom datagram (buffer_from_net st)
                   = frames ps ++ mux_separator len ++ partial ++ old).
  { unfold recvfrom. subst datagram old. now rewrite <- !app_assoc. }
  assert (Hfull : Z.of_nat (length (recvfrom datagram (buffer_from_net st))) = BUFSIZE).
  { unfold recvfrom. rewrite length_app, length_skipn. fold nread. lia. }
  rewrite Hbufeq in *.
  set (buf := frames ps ++ mux_separator len ++ partial ++ old) in *.
  set (pos := Z.of_nat (length (frames ps))).
  set (p1 := pos + (if len <? 64 then 1 else 2)).
  assert (Esep : outcome (demux_separator char_signed buf pos)
                 = Ok (Some (decoded_length char_signed len, p1))).
  { subst buf pos p1. apply demux_separator_written; lia. }
  destruct (demux_loop_frames_then char_signed decomp_ctx rohc_decompress3 cfg no_compression
              ps [] (mux_separator len ++ partial ++ old)
              (Z.to_nat nread) (decompressor st) nread Hps Hsmall) as (Ew & Es & Ev & El & Eo);
    [cbn [app length]; lia | exact Hbuf | cbn [length]; lia |].
  cbn [app length] in Ew, Es, Ev, El, Eo. change (Z.of_nat 0) with 0 in *.
  fold buf pos in Ew, Es, Ev, El, Eo.
  destruct (Z.to_nat nread) as [|fuel] eqn:Efuel; [lia|].
  destruct (demux_loop_truncated_payload char_signed decomp_ctx rohc_decompress3 cfg nread
              buf pos (decoded_length char_signed len) p1
              fuel (decompressor st) Hfull) as (Tw & Tl & To);
    [subst pos; lia | exact Esep | subst p1 pos; lia | subst p1 pos; lia |].
  assert (Tv : overruns (trace (demux_loop char_signed rohc_decompress3 (S fuel) cfg nread
                                  buf pos (decompressor st))) = []).
  { cbn [demux_loop]. destruct (Z.ltb_spec pos nread); [|subst pos; lia].
    apply bind_no_overrun.
    - apply demux_packet_no_overrun; [exact no_compression|].
      intros len' p1' E. rewrite Esep in E. injection E as <- _. exact Hdecl.
    - intros [p' d'] Ho.
      rewrite (demux_packet_truncated nread buf pos (decoded_length char_signed len) p1
                 (decompressor st) Hfull) in Ho;
        [| subst pos; lia | exact Esep | subst p1 pos; lia | subst p1 pos; lia].
      injection Ho as <- <-. cbv beta iota.
      destruct fuel; cbn [demux_loop];
        (destruct (Z.ltb_spec (p1 + Z.max 0 (decoded_length char_signed len)) nread);
         [subst p1 pos; lia | reflexivity]). }
  destruct (logf_trace cfg (rec_muxed nread)) as (L1 & L2 & L3 & _).
  rewrite outcome_bind, trace_bind, logf_outcome. cbv beta iota.
  rewrite outcome_bind, trace_bind, Eo, To. cbv beta iota.
  rewrite !tap_writes_app, !sent_datagrams_app, !overruns_app, !log_records_app,
    L1, L2, L3, Ew, Ev, Tw, Tv.
  cbn [trace outcome ret fst snd tap_writes sent_datagrams overruns log_records flat_map app].
  rewrite !app_nil_r. split; [reflexivity|]. split; [|split; [reflexivity | split]].
  - rewrite Es. apply (demux_loop_sends_nothing char_signed decomp_ctx rohc_decompress3 cfg).
  - intros Hlog. apply in_or_app. right. apply El. rewrite Tl, Hlog. cbn. auto.
  - eexists. reflexivity.
Qed.

(** The peer's loop over the bundles of [qss], one datagram each: the
    packets come out in the order of the bundles and of the frames. *)
Lemma main_loop_receives (qss : list (list (list byte))) :
  Forall (fun qs => Forall (fun p => length_read_back char_signed (Z.of_nat (length p))) qs /\
                    Z.of_nat (length (frames qs)) <= BUFSIZE) qss ->
  forall peer : state comp_ctx decomp_ctx,
    let r := main_loop char_signed rohc_compress4 rohc_decompress3 cfg peer
               (map (fun qs => NetReadable (frames qs) (port cfg)) qss) in
    tap_writes (trace r) = concat qss /\
    sent_datagrams (trace r) = [] /\
    exists peer', outcome r = Ok peer'.
Proof.
  induction 1 as [|qs qss [Hqs Hsize] _ IH]; intros peer; cbv zeta.
  - cbn. repeat split. eexists. reflexivity.
  - cbn [map main_loop main_loop_turn concat].
    destruct (net_event_frames char_signed comp_ctx decomp_ctx rohc_decompress3 cfg peer qs
                no_compression Hqs Hsize) as (Hw & Hs & Ho).
    rewrite outcome_bind, trace_bind, Ho, tap_writes_app, sent_datagrams_app, Hw, Hs.
    cbv beta iota.
    match goal with |- context [main_loop _ _ _ _ ?s _] => destruct (IH s) as (Iw & Is & Io) end.
    rewrite Iw, Is. repeat split. exact Io.
Qed.

End Bundles.

(** Two packets, then the byte 80 and two more bytes. *)
Lemma bad_separator_discards_the_rest_witness :
  let datagram := frames [[x61; x62]; [x63]] ++ x80 :: [x01; x64] in
  let r := net_event false no_rohc plain_config initial_state datagram (port plain_config) in
  tap_writes (trace r) = [[x61; x62]; [x63]] /\
  sent_datagrams (trace r) = [] /\
  overruns (trace r) = [] /\
  (log_file plain_config = true ->
   In (error_bad_separator (Z.of_nat (length datagram))) (log_records (trace r))) /\
  exists st', outcome r = Ok st'.
Proof.
  apply (bad_separator_discards_the_rest false unit unit no_rohc plain_config eq_refl
           initial_state [[x61; x62]; [x63]] x80 [x01; x64]).
  - repeat constructor; cbn; lia.
  - repeat constructor; vm_compute; discriminate.
  - cbn. lia.
  - cbn. unfold BUFSIZE. lia.
Defined.

(** One packet, then a separator that declares five bytes, followed by two. *)
Lemma truncated_payload_discards_the_rest_witness :
  let datagram := frames [[x61; x62]] ++ mux_separator 5 ++ [x63; x64] in
  let r := net_event true no_rohc plain_config initial_state datagram (port plain_config) in
  tap_writes (trace r) = [[x61; x62]] /\
  sent_datagrams (trace r) = [] /\
  overruns (trace r) = [] /\
  (log_file plain_config = true ->
   In (error_demux_bad_length (Z.of_nat (length datagram))) (log_records (trace r))) /\
  exists st', outcome r = Ok st'.
Proof.
  apply (truncated_payload_discards_the_rest true unit unit no_rohc plain_config eq_refl
           initial_state [[x61; x62]] 5 [x63; x64]).
  - repeat constructor; cbn; lia.
  - repeat constructor; vm_compute; discriminate.
  - reflexivity.
  - lia.
  - cbn. lia.
  - vm_compute. discriminate.
  - cbn. unfold BUFSIZE. lia.
Defined.

(** *** Runs of the sender *)

Section SenderRuns.

Variable char_signed : bool.
Variables comp_ctx decomp_ctx : Type.
Variable rohc_compress4 : comp_ctx -> list byte -> comp_ctx * rohc_status_t * list byte.
Variable rohc_decompress3 : decomp_ctx -> list byte -> decomp_ctx * rohc_status_t * list byte.
Variable cfg : config.

(** As long as every payload fits in a bundle of its own, the buffer and the
    bundles stay within [MTU] bytes over a whole run. *)
Lemma main_loop_fits (inputs : list input) :
  Forall sender_input inputs ->
  (forall (st : state comp_ctx decomp_ctx) p, In p (tap_packets inputs) ->
     Z.of_nat (length (frame (fst (offered rohc_compress4 cfg st p)))) <= MTU) ->
  forall st : state comp_ctx decomp_ctx,
    size_muxed_packet st <= MTU ->
    let r := main_loop char_signed rohc_compress4 rohc_decompress3 cfg st inputs in
    Forall (fun d => Z.of_nat (length d) <= MTU) (sent_datagrams (trace r)) /\
    overruns (trace r) = [] /\
    exists st', outcome r = Ok st' /\ size_muxed_packet st' <= MTU.
Proof.
  induction 1 as [|i inputs Hi _ IH]; intros Hfit st Hst; cbv zeta.
  - cbn. repeat split; [constructor|]. exists st. split; [reflexivity | exact Hst].
  - cbn [main_loop].
    assert (Hturn : let r := main_loop_turn char_signed rohc_compress4 rohc_decompress3
                               cfg st i in
                    Forall (fun d => Z.of_nat (length d) <= MTU) (sent_datagrams (trace r)) /\
                    overruns (trace r) = [] /\
                    exists st', outcome r = Ok st' /\ size_muxed_packet st' <= MTU).
    { destruct i as [datagram remote_port | packet t | t]; [contradiction | |].
      - apply tap_event_within_MTU; [exact Hst|]. apply Hfit. cbn. auto.
      - cbv zeta. cbn [main_loop_turn].
        destruct (period_event_run comp_ctx decomp_ctx cfg st t)
          as (Hs & _ & Ho & st' & He & _ & Hpos & Hneg).
        rewrite Hs, Ho, He. split; [|split; [reflexivity|]].
        + destruct (num_pkts_stored_from_tap st >? 0); repeat constructor. exact Hst.
        + exists st'. split; [reflexivity|].
          destruct (Z_gt_le_dec (num_pkts_stored_from_tap st) 0) as [Hgt | Hle].
          * destruct (Hpos Hgt) as [_ ->]. unfold MTU. lia.
          * destruct (Hneg Hle) as [_ Hm]. unfold size_muxed_packet in *. now rewrite Hm. }
    cbv zeta in Hturn. destruct Hturn as (Hs1 & Ho1 & st1 & He1 & Hst1).
    destruct (IH (fun st p Hp => Hfit st p ltac:(cbn; apply in_or_app; right; exact Hp))
                 st1 Hst1) as (Hs2 & Ho2 & st2 & He2 & Hst2).
    rewrite trace_bind, outcome_bind, He1, sent_datagrams_app, overruns_app, Ho1, Ho2.
    split; [apply Forall_app; split; assumption|]. split; [reflexivity|].
    exists st2. split; assumption.
Qed.

(** X10: without compression, as long as every packet read from the tun/tap
    device has at most [MTU - 2] bytes, over any run of the sender every
    datagram sent has at most [MTU] bytes, no store leaves [muxed_packet],
    every handler runs to its end and the buffer holds at most [MTU] bytes
    afterwards. *)
Theorem sender_stays_within_MTU (inputs : list input) (st : state comp_ctx decomp_ctx) :
  compress_headers cfg = false ->
  Forall sender_input inputs ->
  Forall (fun p => Z.of_nat (length p) <= MTU - 2) (tap_packets inputs) ->
  size_muxed_packet st <= MTU ->
  let r := main_loop char_signed rohc_compress4 rohc_decompress3 cfg st inputs in
  Forall (fun d => Z.of_nat (length d) <= MTU) (sent_datagrams (trace r)) /\
  overruns (trace r) = [] /\
  exists st', outcome r = Ok st' /\ size_muxed_packet st' <= MTU.
Proof.
  intros Hcomp Hin Hsmall Hst. apply main_loop_fits; [exact Hin | | exact Hst].
  intros st0 p Hp. unfold offered. rewrite Hcomp. cbn [fst].
  rewrite Forall_forall in Hsmall. specialize (Hsmall p Hp).
  rewrite frame_length. destruct (Z.of_nat (length p) <? 64); lia.
Qed.

(** The count of stored packets over one turn of the sender, with the
    limit at least 1: no bundle has more packets than the limit, and fewer
    than the limit are left stored. *)
Lemma main_loop_turn_count (st : state comp_ctx decomp_ctx) (ps : list (list byte))
    (i : input) :
  compress_headers cfg = false ->
  1 <= limit_numpackets_tap cfg ->
  sender_input i ->
  muxed_packet st = frames ps ->
  num_pkts_stored_from_tap st = Z.of_nat (length ps) ->
  Z.of_nat (length ps) < limit_numpackets_tap cfg ->
  let r := main_loop_turn char_signed rohc_compress4 rohc_decompress3 cfg st i in
  exists qss ps' st',
    sent_datagrams (trace r) = map frames qss /\
    Forall (fun qs => Z.of_nat (length qs) <= limit_numpackets_tap cfg) qss /\
    outcome r = Ok st' /\
    muxed_packet st' = frames ps' /\
    num_pkts_stored_from_tap st' = Z.of_nat (length ps') /\
    Z.of_nat (length ps') < limit_numpackets_tap cfg /\
    concat qss ++ ps' = ps ++ match i with TapReadable packet _ => [packet] | _ => [] end.
Proof.
  intros Hcomp Hlimit Hi Hm Hn Hlt. cbv zeta.
  destruct i as [datagram remote_port | p t | t]; [contradiction | |]; cbn [main_loop_turn].
  - destruct (tap_event_run comp_ctx decomp_ctx rohc_compress4 cfg st p t)
      as (Hs & _ & _ & He).
    unfold offered in Hs, He. rewrite Hcomp in Hs, He. cbn [fst snd] in Hs, He.
    rewrite Hs, He, Hm, Hn.
    destruct (predicted_size_muxed_packet (size_muxed_packet st) (Z.of_nat (length p)) >? MTU);
      match goal with |- context [if ?b then _ else _] => destruct b eqn:Ef end;
      try (unfold fires in Ef; cbn [set_accumulator num_pkts_stored_from_tap] in Ef;
           apply orb_false_iff in Ef; destruct Ef as [Ef _];
           apply orb_false_iff in Ef; destruct Ef as [Ef _];
           apply Z.eqb_neq in Ef).
    + exists [ps; [p]], [], (set_accumulator st [] 0 t (compressor st)).
      cbn [map app concat]. rewrite frames_one, app_nil_r.
      repeat split; try (cbn; lia). repeat constructor; cbn [length]; lia.
    + exists [ps], [p]. eexists. cbn [map app concat set_accumulator muxed_packet
                                     num_pkts_stored_from_tap].
      rewrite frames_one, app_nil_r.
      repeat split; try (cbn [length]; lia). repeat constructor; lia.
    + exists [ps ++ [p]], [], (set_accumulator st [] 0 t (compressor st)).
      cbn [map app concat]. rewrite frames_app, frames_one, !app_nil_r.
      repeat split; try (cbn; lia).
      repeat constructor. rewrite length_app. cbn [length]. lia.
    + exists [], (ps ++ [p]). eexists. cbn [map app concat set_accumulator muxed_packet
                                           num_pkts_stored_from_tap].
      rewrite frames_app, frames_one, length_app. cbn [length].
      repeat split;
        try (cbn [set_accumulator muxed_packet num_pkts_stored_from_tap]; lia).
      constructor.
  - unfold period_event. rewrite app_nil_r.
    destruct (num_pkts_stored_from_tap st >? 0).
    + exists [ps], [], (set_accumulator st [] 0 t (compressor st)).
      rewrite Hm. unfold logf.
      destruct (log_file cfg); cbn [concat app]; rewrite !app_nil_r;
        repeat split; try (cbn; lia); repeat constructor; lia.
    + exists [], ps. eexists. cbn. repeat split; try assumption. constructor.
Qed.

(** The count over a whole run of the sender. *)
Lemma main_loop_count (inputs : list input) :
  compress_headers cfg = false ->
  1 <= limit_numpackets_tap cfg ->
  Forall sender_input inputs ->
  forall (st : state comp_ctx decomp_ctx) (ps : list (list byte)),
    muxed_packet st = frames ps ->
    num_pkts_stored_from_tap st = Z.of_nat (length ps) ->
    Z.of_nat (length ps) < limit_numpackets_tap cfg ->
    let r := main_loop char_signed rohc_compress4 rohc_decompress3 cfg st inputs in
    exists qss ps' st',
      sent_datagrams (trace r) = map frames qss /\
      Forall (fun qs => Z.of_nat (length qs) <= limit_numpackets_tap cfg) qss /\
      outcome r = Ok st' /\
      muxed_packet st' = frames ps' /\
      num_pkts_stored_from_tap st' = Z.of_nat (length ps') /\
      Z.of_nat (length ps') < limit_numpackets_tap cfg /\
      concat qss ++ ps' = ps ++ tap_packets inputs.
Proof.
  intros Hcomp Hlimit. induction 1 as [|i inputs Hi _ IH]; intros st ps Hm Hn Hlt; cbv zeta.
  - exists [], ps, st. cbn. rewrite app_nil_r. repeat split; try assumption. constructor.
  - cbn [main_loop tap_packets flat_map]. fold (tap_packets inputs).
    destruct (main_loop_turn_count st ps i Hcomp Hlimit Hi Hm Hn Hlt)
      as (qss1 & ps1 & st1 & Hs1 & Hf1 & Ho1 & Hm1 & Hn1 & Hlt1 & Hc1).
    destruct (IH st1 ps1 Hm1 Hn1 Hlt1)
      as (qss2 & ps2 & st2 & Hs2 & Hf2 & Ho2 & Hm2 & Hn2 & Hlt2 & Hc2).
    exists (qss1 ++ qss2), ps2, st2.
    rewrite trace_bind, outcome_bind, Ho1, sent_datagrams_app, Hs1, Hs2, map_app, concat_app.
    repeat split; try assumption; [apply Forall_app; split; assumption|].
    rewrite <- app_assoc, Hc2, app_assoc, Hc1, <- app_assoc. reflexivity.
Qed.

(** X11: with a packet limit of at least 1 and no compression, over any run
    of the sender on packets of at most [MTU - 2] bytes, from a buffer that
    holds the frames of fewer packets than the limit in at most [MTU] bytes:
    no store leaves [muxed_packet], every datagram sent has at most [MTU]
    bytes and is the frames of at most [limit_numpackets_tap] packets, fewer
    than the limit are left stored, the counter [num_pkts_stored_from_tap] is
    the number of frames in the buffer, and the bundles followed by the
    buffer hold the packets read, in their order. *)
Theorem bundles_carry_at_most_the_limit (inputs : list input)
    (st : state comp_ctx decomp_ctx) (ps : list (list byte)) :
  compress_headers cfg = false ->
  1 <= limit_numpackets_tap cfg ->
  Forall sender_input inputs ->
  Forall (fun p => Z.of_nat (length p) <= MTU - 2) (tap_packets inputs) ->
  muxed_packet st = frames ps ->
  Z.of_nat (length (frames ps)) <= MTU ->
  num_pkts_stored_from_tap st = Z.of_nat (length ps) ->
  Z.of_nat (length ps) < limit_numpackets_tap cfg ->
  let r := main_loop char_signed rohc_compress4 rohc_decompress3 cfg st inputs in
  overruns (trace r) = [] /\
  Forall (fun d => Z.of_nat (length d) <= MTU) (sent_datagrams (trace r)) /\
  exists qss ps' st',
    sent_datagrams (trace r) = map frames qss /\
    Forall (fun qs => Z.of_nat (length qs) <= limit_numpackets_tap cfg) qss /\
    outcome r = Ok st' /\
    muxed_packet st' = frames ps' /\
    num_pkts_stored_from_tap st' = Z.of_nat (length ps') /\
    Z.of_nat (length ps') < limit_numpackets_tap cfg /\
    concat qss ++ ps' = ps ++ tap_packets inputs.
Proof.
  intros Hcomp Hlimit Hin Hsmall Hm Hsize Hn Hlt. cbv zeta.
  destruct (main_loop_fits inputs Hin) with (st := st) as (Hfit & Hv & _).
  { intros st0 p Hp. unfold offered. rewrite Hcomp. cbn [fst].
    rewrite Forall_forall in Hsmall. specialize (Hsmall p Hp).
    rewrite frame_length. destruct (Z.of_nat (length p) <? 64); lia. }
  { unfold size_muxed_packet. rewrite Hm. exact Hsize. }
  split; [exact Hv|]. split; [exact Hfit|].
  apply main_loop_count; assumption.
Qed.

End SenderRuns.

(** Three packets and the expiry of the period. *)
Lemma sender_stays_within_MTU_witness :
  let inputs := [TapReadable [x61; x62] 1; TapReadable [x63] 2; PeriodExpired 3;
                 TapReadable [x64] 4] in
  let r := main_loop false no_rohc no_rohc period_config initial_state inputs in
  Forall (fun d => Z.of_nat (length d) <= MTU) (sent_datagrams (trace r)) /\
  overruns (trace r) = [] /\
  exists st', outcome r = Ok st' /\ size_muxed_packet st' <= MTU.
Proof.
  apply (sender_stays_within_MTU false unit unit no_rohc no_rohc period_config
           [TapReadable [x61; x62] 1; TapReadable [x63] 2; PeriodExpired 3;
            TapReadable [x64] 4] initial_state eq_refl).
  - repeat constructor.
  - repeat constructor; cbn; unfold MTU; lia.
  - cbn. unfold MTU. lia.
Defined.

(** The program started with [-n 2]: four packets make two bundles. *)
Lemma bundles_carry_at_most_the_limit_witness :
  let cfg := {| port := PORT; compress_headers := false; log_file := true;
                limit_numpackets_tap := 2; size_threshold := MAXTHRESHOLD;
                timeout := MAXTIMEOUT; period := MAXTIMEOUT |} in
  let inputs := [TapReadable [x61; x62] 1; TapReadable [x63] 2; PeriodExpired 3;
                 TapReadable [x64] 4; TapReadable [x65] 5] in
  let r := main_loop false no_rohc no_rohc cfg initial_state inputs in
  overruns (trace r) = [] /\
  Forall (fun d => Z.of_nat (length d) <= MTU) (sent_datagrams (trace r)) /\
  exists qss ps' st',
    sent_datagrams (trace r) = map frames qss /\
    Forall (fun qs => Z.of_nat (length qs) <= limit_numpackets_tap cfg) qss /\
    outcome r = Ok st' /\
    muxed_packet st' = frames ps' /\
    num_pkts_stored_from_tap st' = Z.of_nat (length ps') /\
    Z.of_nat (length ps') < limit_numpackets_tap cfg /\
    concat qss ++ ps' = [] ++ tap_packets inputs.
Proof.
  cbv zeta.
  apply (bundles_carry_at_most_the_limit false unit unit no_rohc no_rohc
           {| port := PORT; compress_headers := false; log_file := true;
              limit_numpackets_tap := 2; size_threshold := MAXTHRESHOLD;
              timeout := MAXTIMEOUT; period := MAXTIMEOUT |}
           [TapReadable [x61; x62] 1; TapReadable [x63] 2; PeriodExpired 3;
            TapReadable [x64] 4; TapReadable [x65] 5] initial_state [] eq_refl).
  - cbn. lia.
  - repeat constructor.
  - repeat constructor; vm_compute; discriminate.
  - reflexivity.
  - vm_compute. discriminate.
  - reflexivity.
  - cbn. lia.
Defined.

(** *** Bundles of compressed packets *)

Section Compressed.

Variable char_signed : bool.
Variable decomp_ctx : Type.
Variable rohc_decompress3 : decomp_ctx -> list byte -> decomp_ctx * rohc_status_t * list byte.
Variable cfg : config.
Hypothesis compression : compress_headers cfg = true.

(** One turn over the frame of a payload hands that payload to the
    decompressor and stops right after the frame, whatever the status. *)
Lemma demux_packet_compressed_frame (pre p post : list byte) (nread : Z) (d : decomp_ctx) :
  length_read_back char_signed (Z.of_nat (length p)) ->
  Z.of_nat (length (pre ++ frame p)) <= nread ->
  nread <= BUFSIZE ->
  let r := demux_packet char_signed rohc_decompress3 cfg nread (pre ++ frame p ++ post)
             (Z.of_nat (length pre)) d in
  outcome r = Ok (Z.of_nat (length (pre ++ frame p)), snd (decompressed rohc_decompress3 d [p]))
  /\ tap_writes (trace r) = fst (decompressed rohc_decompress3 d [p]).
Proof.
  intros Hlen Hfit Hbuf. cbv zeta.
  rewrite length_app, Nat2Z.inj_add, frame_length in Hfit.
  set (len := Z.of_nat (length p)) in *.
  set (seplen := if len <? 64 then 1 else 2) in *.
  assert (Hsep : 1 <= seplen <= 2) by (subst seplen; destruct (len <? 64); lia).
  assert (Es : outcome (demux_separator char_signed (pre ++ frame p ++ post)
                          (Z.of_nat (length pre)))
               = Ok (Some (len, Z.of_nat (length pre) + seplen))).
  { unfold frame. rewrite <- app_assoc.
    apply demux_separator_mux_separator; [exact Hlen | fold seplen; lia]. }
  assert (Ec : outcome (copy_loop (Z.to_nat len) 0 (Z.of_nat (length pre) + seplen)
                          (pre ++ frame p ++ post) [])
               = Ok (p, Z.of_nat (length pre) + seplen + len)).
  { unfold frame. rewrite <- app_assoc, app_assoc.
    replace (Z.of_nat (length pre) + seplen)
      with (Z.of_nat (length (pre ++ mux_separator len)))
      by (rewrite length_app, Nat2Z.inj_add, mux_separator_length; reflexivity).
    unfold len at 1. rewrite Nat2Z.id.
    rewrite copy_loop_in; [reflexivity|].
    rewrite length_app, Nat2Z.inj_add, mux_separator_length. fold len seplen. lia. }
  assert (Hpos : Z.of_nat (length (pre ++ frame p)) = Z.of_nat (length pre) + seplen + len).
  { rewrite length_app, Nat2Z.inj_add, frame_length. fold len seplen. lia. }
  pose proof (demux_separator_trace char_signed (pre ++ frame p ++ post)
                (Z.of_nat (length pre))) as (Ts1 & _).
  pose proof (copy_loop_trace (Z.to_nat len) 0 (Z.of_nat (length pre) + seplen)
                (pre ++ frame p ++ post) []) as (Tc1 & _).
  assert (Hfirst : firstn (Z.to_nat len) p = p).
  { unfold len. rewrite Nat2Z.id. apply firstn_all. }
  unfold demux_packet.
  rewrite outcome_bind, trace_bind, Es. cbv beta iota.
  rewrite outcome_bind, trace_bind, Ec. cbv beta iota.
  destruct (Z.gtb_spec (Z.of_nat (length pre) + seplen + len) nread) as [Hgt | _]; [lia|].
  destruct (Z.ltb_spec len 0) as [Hneg | _]; [lia|].
  rewrite compression. cbn [negb orb andb decompressed]. unfold decompress_block.
  rewrite Hfirst, Hpos, !tap_writes_app, Ts1, Tc1.
  destruct (rohc_decompress3 d p) as [[d' status] ip].
  destruct (logf_trace cfg (rec_ROHC_feedback nread)) as (L1 & _).
  destruct (logf_trace cfg (error_decomp_failed nread)) as (L2 & _).
  destruct (status_is_OK status) eqn:Eok; [destruct ip as [|b ip]|].
  - repeat (progress (rewrite ?outcome_bind, ?trace_bind, ?logf_outcome, ?Eok;
                      cbn [outcome trace ret cwrite emit fst snd negb orb andb])).
    destruct (logf_trace cfg (sent_demuxed len)) as (L3 & _).
    rewrite !tap_writes_app, L1, L3, Hfirst. repeat split.
  - set (n := Z.of_nat (length (b :: ip))).
    assert (Hip : firstn (Z.to_nat n) ((b :: ip) ++ skipn (length (b :: ip)) p) = b :: ip).
    { subst n. rewrite Nat2Z.id, firstn_app, firstn_all, Nat.sub_diag, firstn_O.
      apply app_nil_r. }
    destruct (logf_trace cfg (sent_demuxed n)) as (L3 & _).
    destruct (MTU <? n);
      repeat (progress (rewrite ?outcome_bind, ?trace_bind, ?logf_outcome, ?Eok;
                        cbn [outcome trace ret cwrite emit fst snd negb orb andb]));
      rewrite !tap_writes_app, L3, Hip; repeat split.
  - repeat (progress (rewrite ?outcome_bind, ?trace_bind, ?logf_outcome, ?Eok;
                      cbn [outcome trace ret cwrite emit fst snd negb orb andb])).
    rewrite !tap_writes_app, L2. repeat split.
Qed.

Lemma decompressed_cons (d : decomp_ctx) (p : list byte) (ps : list (list byte)) :
  decompressed rohc_decompress3 d (p :: ps) =
  (fst (decompressed rohc_decompress3 d [p])
     ++ fst (decompressed rohc_decompress3 (snd (decompressed rohc_decompress3 d [p])) ps),
   snd (decompressed rohc_decompress3 (snd (decompressed rohc_decompress3 d [p])) ps)).
Proof.
  cbn [decompressed]. destruct (rohc_decompress3 d p) as [[d' status] ip]. cbn [fst snd].
  destruct (decompressed rohc_decompress3 d' ps) as [rest d'']. cbn [fst snd].
  now rewrite app_nil_r.
Qed.

(** With every payload and every decompressed packet of at most [MTU]
    bytes, the turn stores nothing outside [demuxed_packet]. *)
Lemma demux_packet_compressed_no_overrun (pre p post : list byte) (nread : Z)
    (d : decomp_ctx) :
  length_read_back char_signed (Z.of_nat (length p)) ->
  Z.of_nat (length p) <= MTU ->
  Z.of_nat (length (snd (rohc_decompress3 d p))) <= MTU ->
  Z.of_nat (length (pre ++ frame p)) <= nread ->
  nread <= BUFSIZE ->
  overruns (trace (demux_packet char_signed rohc_decompress3 cfg nread (pre ++ frame p ++ post)
                     (Z.of_nat (length pre)) d)) = [].
Proof.
  intros Hlen Hsmall Hout Hfit Hbuf.
  rewrite length_app, Nat2Z.inj_add, frame_length in Hfit.
  set (len := Z.of_nat (length p)) in *.
  set (seplen := if len <? 64 then 1 else 2) in *.
  assert (Hsep : 1 <= seplen <= 2) by (subst seplen; destruct (len <? 64); lia).
  assert (Es : outcome (demux_separator char_signed (pre ++ frame p ++ post)
                          (Z.of_nat (length pre)))
               = Ok (Some (len, Z.of_nat (length pre) + seplen))).
  { unfold frame. rewrite <- app_assoc.
    apply demux_separator_mux_separator; [exact Hlen | fold seplen; lia]. }
  assert (Ec : outcome (copy_loop (Z.to_nat len) 0 (Z.of_nat (length pre) + seplen)
                          (pre ++ frame p ++ post) [])
               = Ok (p, Z.of_nat (length pre) + seplen + len)).
  { unfold frame. rewrite <- app_assoc, app_assoc.
    replace (Z.of_nat (length pre) + seplen)
      with (Z.of_nat (length (pre ++ mux_separator len)))
      by (rewrite length_app, Nat2Z.inj_add, mux_separator_length; reflexivity).
    unfold len at 1. rewrite Nat2Z.id.
    rewrite copy_loop_in; [reflexivity|].
    rewrite length_app, Nat2Z.inj_add, mux_separator_length. fold len seplen. lia. }
  assert (Hfirst : firstn (Z.to_nat len) p = p).
  { unfold len. rewrite Nat2Z.id. apply firstn_all. }
  unfold demux_packet.
  apply bind_no_overrun; [apply demux_separator_trace|].
  intros sep E. rewrite Es in E. injection E as <-.
  apply bind_no_overrun; [apply copy_loop_no_overrun; lia|].
  intros [dem p2] E. rewrite Ec in E. injection E as <- <-. cbv beta iota.
  destruct (Z.gtb_spec (Z.of_nat (length pre) + seplen + len) nread) as [Hgt | _]; [lia|].
  destruct (Z.ltb_spec len 0) as [Hneg | _]; [lia|].
  rewrite compression. cbn [negb orb andb].
  apply bind_no_overrun.
  - unfold decompress_block. rewrite Hfirst.
    destruct (rohc_decompress3 d p) as [[d' status] ip]. cbn [snd] in Hout.
    destruct (status_is_OK status); [destruct ip as [|b ip]|].
    + apply bind_no_overrun; [apply logf_trace | reflexivity].
    + apply bind_no_overrun; [|reflexivity].
      destruct (Z.ltb_spec MTU (Z.of_nat (length (b :: ip)))); [lia | reflexivity].
    + apply bind_no_overrun; [apply logf_trace | reflexivity].
  - intros [[[status dem'] len'] d'] _. cbv beta iota.
    apply bind_no_overrun; [|reflexivity].
    destruct (status_is_OK status); [|reflexivity].
    apply bind_no_overrun; [reflexivity | intros; apply logf_trace].
Qed.

Lemma demux_loop_compressed_frames (ps : list (list byte)) :
  forall (pre post : list byte) (fuel : nat) (d : decomp_ctx) (nread : Z),
    Forall (fun p => length_read_back char_signed (Z.of_nat (length p))) ps ->
    Forall (fun p => Z.of_nat (length p) <= MTU) ps ->
    (forall d' p, In p ps -> Z.of_nat (length (snd (rohc_decompress3 d' p))) <= MTU) ->
    nread = Z.of_nat (length (pre ++ frames ps)) ->
    nread <= BUFSIZE ->
    nread - Z.of_nat (length pre) <= Z.of_nat fuel ->
    let r := demux_loop char_signed rohc_decompress3 fuel cfg nread (pre ++ frames ps ++ post)
               (Z.of_nat (length pre)) d in
    outcome r = Ok (snd (decompressed rohc_decompress3 d ps)) /\
    tap_writes (trace r) = fst (decompressed rohc_decompress3 d ps) /\
    overruns (trace r) = [].
Proof.
  induction ps as [|p ps IH];
    intros pre post fuel d nread Hps Hsmall Hout Hn Hbuf Hfuel; cbv zeta.
  - cbn [frames flat_map] in *. rewrite app_nil_r in Hn. subst nread.
    destruct fuel; cbn [demux_loop]; rewrite Z.ltb_irrefl; repeat split.
  - cbn [frames flat_map] in *. fold (frames ps) in *.
    inversion Hps as [|? ? Hp Hps']; subst.
    inversion Hsmall as [|? ? Hp' Hsmall']; subst.
    pose proof (frame_length p) as Hfl.
    assert (Hsep : 1 <= Z.of_nat (length (frame p)))
      by (rewrite Hfl; destruct (Z.of_nat (length p) <? 64); lia).
    rewrite !length_app, !Nat2Z.inj_add in Hfuel, Hbuf.
    destruct fuel as [|fuel]; [lia|].
    destruct (demux_packet_compressed_frame pre p (frames ps ++ post)
                (Z.of_nat (length (pre ++ frame p ++ frames ps))) d Hp) as (Eo & Et).
    { rewrite !length_app, !Nat2Z.inj_add. lia. }
    { rewrite !length_app, !Nat2Z.inj_add. lia. }
    pose proof (demux_packet_compressed_no_overrun pre p (frames ps ++ post)
                  (Z.of_nat (length (pre ++ frame p ++ frames ps))) d Hp Hp'
                  (Hout d p (or_introl eq_refl))) as Ev.
    rewrite !length_app, !Nat2Z.inj_add in Ev.
    specialize (Ev ltac:(lia) ltac:(lia)).
    rewrite <- !Nat2Z.inj_add, <- !length_app in Ev.
    destruct (IH (pre ++ frame p) post fuel (snd (decompressed rohc_decompress3 d [p]))
                (Z.of_nat (length (pre ++ frame p ++ frames ps))) Hps' Hsmall')
      as (Io & It & Iv).
    { intros d' q Hq. apply Hout. right. exact Hq. }
    { now rewrite <- app_assoc. }
    { rewrite !length_app, !Nat2Z.inj_add. lia. }
    { rewrite !length_app, !Nat2Z.inj_add. lia. }
    rewrite <- !app_assoc in Io, It, Iv. rewrite <- !app_assoc.
    cbn [demux_loop].
    destruct (Z.ltb_spec (Z.of_nat (length pre))
                (Z.of_nat (length (pre ++ frame p ++ frames ps)))) as [_ | Hge];
      [|rewrite !length_app, !Nat2Z.inj_add in Hge; lia].
    rewrite outcome_bind, trace_bind, Eo. cbv beta iota.
    rewrite tap_writes_app, overruns_app, Et, Ev, Io, It, Iv, (decompressed_cons d p ps).
    repeat split.
Qed.

(** X12: with compression enabled, a datagram from the multiplexing port
    that holds the frames of the payloads [ps], each of at most [MTU] bytes,
    is parsed to its end by a decompressor whose packets have at most [MTU]
    bytes and that yields a packet whenever it answers [ROHC_STATUS_OK]:
    every payload is handed to [rohc_decompress3] byte for byte, in the order
    of the bundle and with the context the payload before it left; the
    device receives the decompressed packet where the status is
    [ROHC_STATUS_OK] and nothing for any other status, after which the next
    payload is taken; no store leaves [demuxed_packet], no datagram is sent
    and the last context is kept for the next datagram. *)
Theorem net_event_decompresses (comp_ctx : Type) (st : state comp_ctx decomp_ctx)
    (ps : list (list byte)) :
  Forall (fun p => length_read_back char_signed (Z.of_nat (length p))) ps ->
  Forall (fun p => Z.of_nat (length p) <= MTU) ps ->
  (forall d p, In p ps ->
     Z.of_nat (length (snd (rohc_decompress3 d p))) <= MTU /\
     (status_is_OK (snd (fst (rohc_decompress3 d p))) = true ->
      snd (rohc_decompress3 d p) <> [])) ->
  Z.of_nat (length (frames ps)) <= BUFSIZE ->
  let r := net_event char_signed rohc_decompress3 cfg st (frames ps) (port cfg) in
  tap_writes (trace r) = fst (decompressed rohc_decompress3 (decompressor st) ps) /\
  overruns (trace r) = [] /\
  sent_datagrams (trace r) = [] /\
  exists st', outcome r = Ok st' /\
    decompressor st' = snd (decompressed rohc_decompress3 (decompressor st) ps).
Proof.
  intros Hps Hsmall Hrohc Hbuf. cbv zeta. unfold net_event.
  rewrite (firstn_all2 (n := Z.to_nat BUFSIZE) (frames ps)) by lia.
  rewrite Z.eqb_refl. cbn [decompressor buffer_from_net].
  destruct (demux_loop_compressed_frames ps []
              (skipn (length (frames ps)) (buffer_from_net st))
              (Z.to_nat (Z.of_nat (length (frames ps)))) (decompressor st)
              (Z.of_nat (length (frames ps))) Hps Hsmall) as (Eo & Et & Ev);
    [intros d p Hp; apply (Hrohc d p Hp) | reflexivity | exact Hbuf | cbn [length]; lia |].
  cbn [app length] in Eo, Et, Ev. change (Z.of_nat 0) with 0 in *.
  unfold recvfrom.
  destruct (logf_trace cfg (rec_muxed (Z.of_nat (length (frames ps))))) as (L1 & L2 & L3 & _).
  split; [|split; [|split]].
  - rewrite trace_bind, logf_outcome. cbv beta iota.
    rewrite trace_bind, Eo. cbv beta iota.
    rewrite !tap_writes_app, L1, Et. cbn. now rewrite app_nil_r.
  - apply bind_no_overrun; [exact L3|]. intros _ _.
    apply bind_no_overrun; [exact Ev | reflexivity].
  - apply bind_sends_nothing; [exact L2|]. intros _.
    apply bind_sends_nothing; [apply demux_loop_sends_nothing | reflexivity].
  - rewrite outcome_bind, logf_outcome. cbv beta iota.
    rewrite outcome_bind, Eo. cbv beta iota. eexists. split; reflexivity.
Qed.

End Compressed.

(** A decompressor that counts its calls: it fails on a payload that starts
    with a zero byte and otherwise yields the packet [45 00]. *)
Lemma net_event_decompresses_witness :
  let rohc := fun (d : Z) (p : list byte) =>
                match p with
                | x00 :: _ => (d + 1, ROHC_STATUS_MALFORMED, [])
                | _ => (d + 1, ROHC_STATUS_OK, [x45; x00])
                end in
  let st := {| buffer_from_net := repeat x00 (Z.to_nat BUFSIZE); muxed_packet := [];
               num_pkts_stored_from_tap := 0; time_last_sent_in_microsec := 0;
               compressor := tt; decompressor := 0 |} in
  let ps := [[x61; x62]; [x00; x63]; [x64]] in
  let r := net_event true rohc rohc_config st (frames ps) (port rohc_config) in
  tap_writes (trace r) = fst (decompressed rohc (decompressor st) ps) /\
  overruns (trace r) = [] /\
  sent_datagrams (trace r) = [] /\
  exists st', outcome r = Ok st' /\
    decompressor st' = snd (decompressed rohc (decompressor st) ps).
Proof.
  cbv zeta.
  apply (net_event_decompresses true Z
           (fun (d : Z) (p : list byte) =>
              match p with
              | x00 :: _ => (d + 1, ROHC_STATUS_MALFORMED, [])
              | _ => (d + 1, ROHC_STATUS_OK, [x45; x00])
              end)
           rohc_config eq_refl unit).
  - repeat constructor; cbn; lia.
  - repeat constructor; vm_compute; discriminate.
  - intros d p Hp.
    destruct p as [|b p]; [|destruct b]; cbn; (split; [unfold MTU; lia | discriminate]).
  - cbn. unfold BUFSIZE. lia.
Defined.

(** *** From one tun/tap device to the other *)

(** X13: the two ends together, without compression.  The sender starts
    with an empty buffer and reads packets of at most [MTU - 2] bytes whose
    separator is read back; the peer receives every datagram the sender
    sent, in the order they were sent, from the multiplexing port.  Then
    both runs end normally, the peer sends nothing, and the packets the peer
    writes to its device, followed by the packets still stored in the
    sender's buffer, are the packets the sender read, in the same order:
    none is lost, repeated, altered or moved. *)
Theorem end_to_end_delivery (char_signed : bool) (comp_ctx decomp_ctx : Type)
    (rohc_compress4 : comp_ctx -> list byte -> comp_ctx * rohc_status_t * list byte)
    (rohc_decompress3 : decomp_ctx -> list byte -> decomp_ctx * rohc_status_t * list byte)
    (cfg peer_cfg : config) (st peer : state comp_ctx decomp_ctx) (inputs : list input) :
  compress_headers cfg = false ->
  compress_headers peer_cfg = false ->
  Forall sender_input inputs ->
  muxed_packet st = [] ->
  Forall (fun p => length_read_back char_signed (Z.of_nat (length p)) /\
                   Z.of_nat (length p) <= MTU - 2) (tap_packets inputs) ->
  let s := main_loop char_signed rohc_compress4 rohc_decompress3 cfg st inputs in
  let r := main_loop char_signed rohc_compress4 rohc_decompress3 peer_cfg peer
             (map (fun bundle => NetReadable bundle (port peer_cfg))
                  (sent_datagrams (trace s))) in
  exists kept st' peer',
    outcome s = Ok st' /\
    muxed_packet st' = frames kept /\
    outcome r = Ok peer' /\
    sent_datagrams (trace r) = [] /\
    tap_writes (trace r) ++ kept = tap_packets inputs.
Proof.
  intros Hcomp Hpeer Hin Hst Hps. cbv zeta.
  destruct (main_loop_frames char_signed comp_ctx decomp_ctx rohc_compress4 rohc_decompress3
              cfg Hcomp inputs Hin st [] Hst) as (qss & kept & st' & Hs & Ho & Hm & Hc).
  cbn [app] in Hc.
  destruct (main_loop_fits char_signed comp_ctx decomp_ctx rohc_compress4 rohc_decompress3
              cfg inputs Hin) with (st := st) as (Hfit & _).
  { intros st0 p Hp. unfold offered. rewrite Hcomp. cbn [fst].
    rewrite Forall_forall in Hps. destruct (Hps p Hp) as [_ Hsmall].
    rewrite frame_length. destruct (Z.of_nat (length p) <? 64); lia. }
  { unfold size_muxed_packet. rewrite Hst. cbn. unfold MTU. lia. }
  rewrite Hs in Hfit |- *. rewrite map_map.
  destruct (main_loop_receives char_signed comp_ctx decomp_ctx rohc_compress4 rohc_decompress3
              peer_cfg Hpeer qss) with (peer := peer) as (Hw & Hn & peer' & Hp).
  { rewrite Forall_forall in *. intros qs Hqs. split.
    - apply Forall_forall. intros q Hq. apply Hps. rewrite <- Hc. apply in_or_app. left.
      apply in_concat. exists qs. split; assumption.
    - specialize (Hfit (frames qs) (in_map frames qss qs Hqs)). unfold MTU, BUFSIZE in *. lia. }
  exists kept, st', peer'. rewrite Hw. repeat split; assumption.
Qed.

(** Started with [-P 10000]: three packets and an expiry of the period. *)
Lemma end_to_end_delivery_witness :
  let inputs := [TapReadable [x61; x62] 1; TapReadable [x63] 2; PeriodExpired 3;
                 TapReadable [x64] 4] in
  let s := main_loop false no_rohc no_rohc period_config initial_state inputs in
  let r := main_loop false no_rohc no_rohc plain_config initial_state
             (map (fun bundle => NetReadable bundle (port plain_config))
                  (sent_datagrams (trace s))) in
  exists kept st' peer',
    outcome s = Ok st' /\
    muxed_packet st' = frames kept /\
    outcome r = Ok peer' /\
    sent_datagrams (trace r) = [] /\
    tap_writes (trace r) ++ kept = tap_packets inputs.
Proof.
  apply (end_to_end_delivery false unit unit no_rohc no_rohc period_config plain_config
           initial_state initial_state
           [TapReadable [x61; x62] 1; TapReadable [x63] 2; PeriodExpired 3;
            TapReadable [x64] 4] eq_refl eq_refl).
  - repeat constructor.
  - reflexivity.
  - repeat constructor; cbn; unfold MTU; lia.
Defined.

(** *** After a packet and after a period *)

(** X15: when the handler of a packet from the tun/tap device returns, no
    trigger is left pending on what is stored, as long as the packet limit is
    not 0, neither the size threshold nor the timeout is negative, the buffer
    holds at most [MTU] bytes and the payload fits with its separator in
    [MTU] bytes: no store leaves [muxed_packet], the handler runs to its end,
    the buffer still holds at most [MTU] bytes and the test of line 1135,
    made again on the state the handler leaves and with the same clock, is
    false. *)
Theorem tap_event_leaves_no_trigger_pending (comp_ctx decomp_ctx : Type)
    (rohc_compress4 : comp_ctx -> list byte -> comp_ctx * rohc_status_t * list byte)
    (cfg : config) (st : state comp_ctx decomp_ctx) (packet : list byte)
    (time_in_microsec : Z) :
  limit_numpackets_tap cfg <> 0 ->
  0 <= size_threshold cfg ->
  0 <= timeout cfg ->
  size_muxed_packet st <= MTU ->
  Z.of_nat (length (frame (fst (offered rohc_compress4 cfg st packet)))) <= MTU ->
  let r := tap_event rohc_compress4 cfg st packet time_in_microsec in
  overruns (trace r) = [] /\
  exists st',
    outcome r = Ok st' /\
    size_muxed_packet st' <= MTU /\
    fires cfg st' time_in_microsec = false /\
    num_pkts_stored_from_tap st' <> limit_numpackets_tap cfg /\
    size_muxed_packet st' <= size_threshold cfg.
Proof.
  intros Hlimit Hsize Htime Hst Hfit. cbv zeta.
  destruct (tap_event_within_MTU comp_ctx decomp_ctx rohc_compress4 cfg st packet
              time_in_microsec Hst Hfit) as (_ & Hv & st0 & He0 & Hst0).
  split; [exact Hv|].
  destruct (tap_event_run comp_ctx decomp_ctx rohc_compress4 cfg st packet time_in_microsec)
    as (_ & _ & _ & He).
  exists st0. split; [exact He0|]. split; [exact Hst0|].
  rewrite He0 in He. injection He as He.
  assert (Hfires : forall s : state comp_ctx decomp_ctx,
             fires cfg s time_in_microsec = false ->
             num_pkts_stored_from_tap s <> limit_numpackets_tap cfg /\
             size_muxed_packet s <= size_threshold cfg).
  { intros s Hf. unfold fires in Hf.
    apply orb_false_iff in Hf. destruct Hf as [Hf _].
    apply orb_false_iff in Hf. destruct Hf as [Hn Hs].
    apply Z.eqb_neq in Hn. split; [exact Hn|].
    destruct (Z.gtb_spec (size_muxed_packet s) (size_threshold cfg)); [discriminate | lia]. }
  assert (Hf : fires cfg st0 time_in_microsec = false).
  { rewrite He.
    match goal with |- context [if ?b then _ else _] => destruct b eqn:Ef end;
      [|exact Ef].
    unfold fires, size_muxed_packet.
    cbn [set_accumulator num_pkts_stored_from_tap muxed_packet
         time_last_sent_in_microsec length].
    rewrite Z.sub_diag. change (uint64 0) with 0. change (Z.of_nat 0) with 0.
    apply orb_false_iff. split; [apply orb_false_iff; split|].
    - apply Z.eqb_neq. auto.
    - destruct (Z.gtb_spec 0 (size_threshold cfg)); [lia | reflexivity].
    - destruct (Z.gtb_spec 0 (timeout cfg)); [lia | reflexivity]. }
  split; [exact Hf | apply Hfires, Hf].
Qed.

Lemma tap_event_leaves_no_trigger_pending_witness :
  let r := tap_event no_rohc period_config initial_state [x61; x62] 7 in
  overruns (trace r) = [] /\
  exists st',
    outcome r = Ok st' /\
    size_muxed_packet st' <= MTU /\
    fires period_config st' 7 = false /\
    num_pkts_stored_from_tap st' <> limit_numpackets_tap period_config /\
    size_muxed_packet st' <= size_threshold period_config.
Proof.
  apply (tap_event_leaves_no_trigger_pending unit unit no_rohc period_config initial_state
           [x61; x62] 7).
  - vm_compute. discriminate.
  - vm_compute. discriminate.
  - vm_compute. discriminate.
  - vm_compute. discriminate.
  - vm_compute. discriminate.
Defined.

(** X16: the expiry of the period starts a new period whether or not
    something was stored: with the state it leaves, the wait computed at
    lines 683-687 for the same clock is the whole period, and a counter of
    stored packets that was not negative is 0. *)
Theorem period_event_starts_a_new_period (comp_ctx decomp_ctx : Type) (cfg : config)
    (st : state comp_ctx decomp_ctx) (time_in_microsec : Z) :
  0 < period cfg < 2 ^ 64 ->
  exists st',
    outcome (period_event cfg st time_in_microsec) = Ok st' /\
    microseconds_left (period cfg) time_in_microsec (time_last_sent_in_microsec st')
      = period cfg /\
    (0 <= num_pkts_stored_from_tap st -> num_pkts_stored_from_tap st' = 0) /\
    (0 < num_pkts_stored_from_tap st -> muxed_packet st' = []).
Proof.
  intros Hp.
  destruct (period_event_run comp_ctx decomp_ctx cfg st time_in_microsec)
    as (_ & _ & _ & st' & He & Ht & Hpos & Hneg).
  exists st'. split; [exact He|]. split; [|split].
  - rewrite Ht. unfold microseconds_left. rewrite Z.sub_diag. change (uint64 0) with 0.
    destruct (Z.gtb_spec (period cfg) 0); [|lia].
    rewrite Z.sub_0_r. unfold uint64. apply Z.mod_small. lia.
  - intros H0. destruct (Z_gt_le_dec (num_pkts_stored_from_tap st) 0) as [Hgt | Hle].
    + apply Hpos, Hgt.
    + destruct (Hneg Hle) as [-> _]. lia.
  - intros H0. destruct (Hpos ltac:(lia)) as [_ Hsz].
    unfold size_muxed_packet in Hsz. destruct (muxed_packet st'); [reflexivity | cbn in Hsz; lia].
Qed.

Lemma period_event_starts_a_new_period_witness :
  exists st',
    outcome (period_event period_config initial_state 123456) = Ok st' /\
    microseconds_left (period period_config) 123456 (time_last_sent_in_microsec st')
      = period period_config /\
    (0 <= num_pkts_stored_from_tap initial_state -> num_pkts_stored_from_tap st' = 0) /\
    (0 < num_pkts_stored_from_tap initial_state -> muxed_packet st' = []).
Proof.
  apply (period_event_starts_a_new_period unit unit period_config initial_state 123456).
  split; reflexivity.
Defined.
